(** * Photo2Map: a shallow embedding of [main.py]

    The program scans a folder of photographs, reads their EXIF location
    and time tags, builds a time-sorted table, assigns every row a colour
    scalar and renders one marker per row on a map.

    Modelling conventions.
    - Python floats are modelled by exact rationals ([Q]); binary64
      rounding is outside this model.
    - Python exceptions are values of [exn]; code that can raise, print or
      touch the file system runs in the monad [M], a state monad over
      [World] with an exception result.
    - Strings are UTF-8 byte strings ([string]); [str.upper] is modelled
      on the characters whose upper case is an ASCII letter.
    - Calls into pandas, numpy, matplotlib, pathlib and folium whose result
      is not fixed by the program are either given a small executable model
      (with a comment naming the library behaviour that is modelled) or are
      fields of the class [Libraries]. *)

From Stdlib Require Import ZArith QArith Qminmax Qround Lqa List String Ascii.
From Stdlib Require Import Bool Lia.
From Stdlib Require Import Sorted Permutation.
From Stdlib Require Strings.Byte.
Import ListNotations.

Local Open Scope list_scope.
Local Open Scope string_scope.
Local Open Scope Q_scope.

(** ** Exceptions *)

Inductive exn : Type :=
| AttributeError
| KeyError
| UnboundLocalError
| ValueError
| FileNotFoundError
| OSError
| UnpackError.

Inductive result (A : Type) : Type :=
| Ok (a : A)
| Raise (e : exn).
Arguments Ok {A} a.
Arguments Raise {A} e.

(** [except (AttributeError, KeyError)] *)
Definition attribute_or_key (e : exn) : bool :=
  match e with
  | AttributeError | KeyError => true
  | _ => false
  end.

(** [except Exception] *)
Definition any_exception (e : exn) : bool := true.

(** ** Data *)

(** The metadata handle returned by [exif.Image].  Each field is what
    reading that tag gives: its value, or the exception the read raises,
    which is [AttributeError] for a tag that is not there, [KeyError] for
    a file without EXIF segment, and the library's [UnpackError] for
    damaged data. *)
Record Image : Type := {
  gps_latitude : result (Q * Q * Q);
  gps_latitude_ref : result string;
  gps_longitude : result (Q * Q * Q);
  gps_longitude_ref : result string;
  gps_altitude : result Q;
  datetime : result string
}.

(** What is stored at a path: a file that cannot be opened, [open]
    raising [e], or a file for which [exif.Image] returns the handle
    [img].  The library returns a handle also for a file that holds no
    photograph; its tag reads then raise. *)
Inductive file : Type :=
| Unreadable (e : exn)
| Readable (img : Image).

(** One inner dictionary of [coord_dict]; [T] is the type of the
    [timestamp] column ([option string] as scanned, [option Z] once
    [pd.to_datetime] has run; [None] is Python's [None], resp. [NaT]). *)
Record PhotoRecord (T : Type) : Type := {
  latitude : Q;
  longitude : Q;
  altitude : Q;
  filepath : string;
  timestamp : T
}.
Arguments latitude {T} _.
Arguments longitude {T} _.
Arguments altitude {T} _.
Arguments filepath {T} _.
Arguments timestamp {T} _.

(** [folium.Tooltip(tooltip_content, sticky=True)]: the two values the
    f-string interpolates. *)
Record Tooltip : Type := {
  photo_url : string;
  date_text : string
}.

(** A number that may be [nan] (the result of [max] or [min] over
    an empty column). *)
Definition number : Type := option Q.

(** What is added to the [folium.Map], in the order it is added. *)
Inductive Child : Type :=
| CircleMarker (location : Q * Q) (color fill_color : string) (radius : Z)
               (tooltip : Tooltip)
| FitBounds (sw ne : number * number).

Definition Map : Type := list Child.

(** The part of the machine the program reads and writes. Paths are
    canonical strings: one file has one spelling, also in the answer of
    the file dialog. [files] lists the files in the order directory
    enumeration yields them. [replace_error src dst] is the exception with
    which the operating system refuses to move [src] to [dst], if it
    does: the destination directory is missing, the two paths are on
    different file systems, a permission is missing. *)
Record World : Type := {
  cwd : string;
  files : list (string * file);
  map_html : option (string * Map);
  stdout : list string;
  dialogs : list (string * string);
  browser : list string;
  replace_error : string -> string -> option exn
}.

Definition set_files (w : World) (fs : list (string * file)) : World :=
  {| cwd := cwd w; files := fs; map_html := map_html w; stdout := stdout w;
     dialogs := dialogs w; browser := browser w;
     replace_error := replace_error w |}.

Definition set_map_html (w : World) (doc : option (string * Map)) : World :=
  {| cwd := cwd w; files := files w; map_html := doc; stdout := stdout w;
     dialogs := dialogs w; browser := browser w;
     replace_error := replace_error w |}.

Definition set_stdout (w : World) (out : list string) : World :=
  {| cwd := cwd w; files := files w; map_html := map_html w; stdout := out;
     dialogs := dialogs w; browser := browser w;
     replace_error := replace_error w |}.

Definition set_dialogs (w : World) (ds : list (string * string)) : World :=
  {| cwd := cwd w; files := files w; map_html := map_html w;
     stdout := stdout w; dialogs := ds; browser := browser w;
     replace_error := replace_error w |}.

Definition set_browser (w : World) (b : list string) : World :=
  {| cwd := cwd w; files := files w; map_html := map_html w;
     stdout := stdout w; dialogs := dialogs w; browser := b;
     replace_error := replace_error w |}.

(** ** The monad of effects *)

Definition M (A : Type) : Type := World -> result A * World.

Definition ret {A} (a : A) : M A := fun w => (Ok a, w).

Definition bind {A B} (m : M A) (k : A -> M B) : M B :=
  fun w =>
    match m w with
    | (Ok a, w') => k a w'
    | (Raise e, w') => (Raise e, w')
    end.

Definition raise {A} (e : exn) : M A := fun w => (Raise e, w).

(** [try: m  except <catches> as e: h e] *)
Definition try_except {A} (m : M A) (catches : exn -> bool) (h : exn -> M A)
  : M A :=
  fun w =>
    match m w with
    | (Ok a, w') => (Ok a, w')
    | (Raise e, w') => if catches e then h e w' else (Raise e, w')
    end.

Notation "x <- m ;; k" := (bind m (fun x => k))
  (at level 61, m at next level, right associativity).
Notation "m ;;; k" := (bind m (fun _ => k))
  (at level 61, right associativity).

(** A step that only fails or returns, without touching the world. *)
Definition lift {A} (r : result A) : M A := fun w => (r, w).

Definition print (s : string) : M unit :=
  fun w => (Ok tt, set_stdout w (stdout w ++ [s])%list).

(** A list comprehension [[f x for x in l]] whose body has effects. *)
Fixpoint mapM {A B} (f : A -> M B) (l : list A) : M (list B) :=
  match l with
  | [] => ret []
  | x :: l' => y <- f x ;; ys <- mapM f l' ;; ret (y :: ys)
  end.

(** Reading a tag of the metadata handle ([exif_data['tag']] or
    [data.tag]): the value, or the exception the handle raises. *)
Definition attr {A} (field : result A) : M A :=
  match field with
  | Ok v => ret v
  | Raise e => raise e
  end.

(** ** Strings *)

Definition upper_ascii (c : ascii) : ascii :=
  let n := nat_of_ascii c in
  if ((97 <=? n) && (n <=? 122))%nat then ascii_of_nat (n - 32) else c.

(** The two bytes of the long s (U+017F), whose upper case is S. *)
Definition long_s : string :=
  String "197"%char (String "191"%char EmptyString).

(** [str.upper], on ASCII letters and on the long s.  These are the
    characters whose upper case is an ASCII letter; the bytes of every
    other character are left as they are, which is all the membership
    tests of the program can tell. *)
Fixpoint upper (s : string) : string :=
  match s with
  | EmptyString => EmptyString
  | String c s' =>
      match s' with
      | String c' s'' =>
          if Ascii.eqb c "197" && Ascii.eqb c' "191"
          then String "S" (upper s'')
          else String (upper_ascii c) (upper s')
      | EmptyString => String (upper_ascii c) EmptyString
      end
  end.

(** [x in [a, b, ...]] on strings *)
Fixpoint in_list (x : string) (l : list string) : bool :=
  match l with
  | [] => false
  | y :: l' => String.eqb x y || in_list x l'
  end.

(** ** Coordinate Normalizer *)

(** The local variable [mul] is bound on two of the three branches only;
    [None] stands for the unbound variable, whose use raises
    [UnboundLocalError]. *)
Definition convert_coords_to_decimal (coords : Q * Q * Q) (ref : string)
  : M Q :=
  let '(c0, c1, c2) := coords in
  mul <- (if in_list (upper ref) ["W"; "S"] then ret (Some (inject_Z (-1)))
          else if in_list (upper ref) ["E"; "N"] then ret (Some (inject_Z 1))
          else
            print ("Incorrect hemisphere reference. "
                   ++ "Expecting one of 'N', 'S', 'E' or 'W', "
                   ++ "got " ++ ref ++ " instead.") ;;;
            ret None) ;;
  match mul with
  | Some mul => ret (mul * (c0 + c1 / 60 + c2 / 3600))
  | None => raise UnboundLocalError
  end.

(** ** Metadata Extractor *)

Definition get_decimal_coord_from_exif (exif_data : Image) : M (Q * Q * Q) :=
  try_except
    (c <- attr (gps_latitude exif_data) ;;
     r <- attr (gps_latitude_ref exif_data) ;;
     lat <- convert_coords_to_decimal c r ;;
     c' <- attr (gps_longitude exif_data) ;;
     r' <- attr (gps_longitude_ref exif_data) ;;
     lon <- convert_coords_to_decimal c' r' ;;
     alt <- attr (gps_altitude exif_data) ;;
     ret (lat, lon, alt))
    attribute_or_key
    (fun e =>
       print "Image does not contain spatial data or data is invalid." ;;;
       raise e).

(** ** Paths and the file system *)

(** A Python [dict] with string keys: insertion order is kept, and
    assigning to a key that is present keeps the key's position. *)
Definition dict (V : Type) : Type := list (string * V).

Fixpoint lookup {V} (k : string) (d : dict V) : option V :=
  match d with
  | [] => None
  | (k', v) :: d' => if String.eqb k k' then Some v else lookup k d'
  end.

Fixpoint dict_set {V} (k : string) (v : V) (d : dict V) : dict V :=
  match d with
  | [] => [(k, v)]
  | (k', v') :: d' =>
      if String.eqb k k' then (k, v) :: d' else (k', v') :: dict_set k v d'
  end.

Fixpoint remove_key {V} (k : string) (d : dict V) : dict V :=
  match d with
  | [] => []
  | (k', v) :: d' =>
      if String.eqb k k' then remove_key k d' else (k', v) :: remove_key k d'
  end.

Fixpoint name_from (current p : string) : string :=
  match p with
  | EmptyString => current
  | String c p' =>
      if Ascii.eqb c "/" then name_from EmptyString p'
      else name_from (current ++ String c EmptyString) p'
  end.

(** [Path(p).name]: the last component. *)
Definition name (p : string) : string := name_from EmptyString p.

(** [Path(a) / b] for a relative [b] *)
Definition joinpath (a b : string) : string := a ++ "/" ++ b.

Definition endswith (s suffix : string) : bool :=
  (String.length suffix <=? String.length s)%nat
  && String.eqb
       (substring (String.length s - String.length suffix)
                  (String.length suffix) s)
       suffix.

(** Shell-style matching of a file name, for the patterns the program
    uses: a literal, or a star followed by a literal. *)
Definition fnmatch (pattern nm : string) : bool :=
  match pattern with
  | String "*" suffix => endswith nm suffix
  | _ => String.eqb pattern nm
  end.

(** The path [p] lies below [folder], at any depth, and its name matches
    [pattern]. *)
Definition visits (folder pattern p : string) : bool :=
  prefix (folder ++ "/") p && fnmatch pattern (name p).

(** [folder.rglob(pattern)], in enumeration order. *)
Definition rglob (folder pattern : string) : M (list string) :=
  fun w => (Ok (filter (visits folder pattern) (List.map fst (files w))), w).

(** The path [p] seen from the directory [cwd]. *)
Definition absolute (cwd p : string) : string :=
  if prefix "/" p then p
  else if endswith cwd "/" then cwd ++ p
  else cwd ++ "/" ++ p.

(** [Path(p).resolve()] *)
Definition resolve (p : string) : M string :=
  fun w => (Ok (absolute (cwd w) p), w).

(** [Path(src).replace(dst)]: a missing source raises
    [FileNotFoundError]; the operating system may refuse the move with an
    exception of its own; otherwise the file moves and whatever was at
    [dst] is overwritten.  Moving a file onto itself changes nothing; as
    paths are canonical, a source that is its destination under another
    spelling is this case.  Where a new directory entry shows up in the
    enumeration is the file system's choice; here it is the end. *)
Definition Path_replace (src dst : string) : M unit :=
  fun w =>
    match lookup src (files w) with
    | None => (Raise FileNotFoundError, w)
    | Some f =>
        match replace_error w src dst with
        | Some e => (Raise e, w)
        | None =>
            if String.eqb src dst then (Ok tt, w)
            else (Ok tt,
                  set_files w (remove_key dst (remove_key src (files w))
                               ++ [(dst, f)])%list)
        end
    end.

(** ** Metadata Extractor: opening a file *)

Definition read_exif_data (file_path : string) : M Image :=
  fun w =>
    match lookup file_path (files w) with
    | None => (Raise FileNotFoundError, w)
    | Some (Unreadable e) => (Raise e, w)
    | Some (Readable img) => (Ok img, w)
    end.

(** ** Folder Scanner *)

(** The body of the [for f, data in zip(source_files, exif)] loop, run
    over the remaining pairs. *)
Fixpoint scan_files (pairs : list (string * Image))
    (coord_dict : dict (PhotoRecord (option string)))
  : M (dict (PhotoRecord (option string))) :=
  match pairs with
  | [] => ret coord_dict
  | (f, data) :: pairs' =>
      got <- try_except
               (coord <- get_decimal_coord_from_exif data ;; ret (Some coord))
               attribute_or_key
               (fun _ => ret None) ;;
      match got with
      | None => scan_files pairs' coord_dict
      | Some (lat, lon, alt) =>
          path <- resolve f ;;
          ts <- try_except
                  (t <- attr (datetime data) ;; ret (Some t))
                  attribute_or_key
                  (fun _ =>
                     print ("Photo " ++ name f
                            ++ " does not contain datetime information.") ;;;
                     ret None) ;;
          scan_files pairs'
            (dict_set f {| latitude := lat; longitude := lon;
                           altitude := alt; filepath := path;
                           timestamp := ts |} coord_dict)
      end
  end.

Definition read_spatial_data_from_folder (folder image_extension : string)
  : M (dict (PhotoRecord (option string))) :=
  source_files <- rglob folder image_extension ;;
  exif <- mapM read_exif_data source_files ;;
  scan_files (combine source_files exif) [].

(** ** Libraries *)

(** The results of library calls that the program does not determine:
    - [strptime s]: the instant [pd.to_datetime] reads from the text [s]
      under the format ["%Y:%m:%d %H:%M:%S"], [None] when it rejects
      [s];
    - [datetime_as_string t]: [np.datetime_as_string(t, unit='m')];
    - [plasma x]: [plt.get_cmap('plasma')(x, bytes=True)];
    - [as_uri p]: [Path(p).as_uri()]. *)
Class Libraries : Type := {
  strptime : string -> option Z;
  datetime_as_string : option Z -> string;
  plasma : Q -> Byte.byte * Byte.byte * Byte.byte * Byte.byte;
  as_uri : string -> string
}.

(** ** Colours *)

Definition hex_digit (n : N) : ascii :=
  match n with
  | 0%N => "0" | 1%N => "1" | 2%N => "2" | 3%N => "3"
  | 4%N => "4" | 5%N => "5" | 6%N => "6" | 7%N => "7"
  | 8%N => "8" | 9%N => "9" | 10%N => "A" | 11%N => "B"
  | 12%N => "C" | 13%N => "D" | 14%N => "E" | _ => "F"
  end%char.

(** [{:02X}] on an unsigned byte *)
Definition format_02X (b : Byte.byte) : string :=
  let n := Byte.to_N b in
  String (hex_digit (n / 16)) (String (hex_digit (n mod 16)) EmptyString).

Definition rgba_to_hex (rgba : Byte.byte * Byte.byte * Byte.byte * Byte.byte)
  : string :=
  let '(r, g, b, _) := rgba in
  "#" ++ format_02X r ++ format_02X g ++ format_02X b.

(** ** Table Builder *)

(** [pd.DataFrame(res).T]: one row per key of [res], in key order. *)
Definition DataFrame_T {T} (res : dict (PhotoRecord T)) : list (PhotoRecord T) :=
  List.map snd res.

(** [df.timestamp]: the column exists only when some record brought the
    key, that is when the frame has a row. *)
Definition column_timestamp {T} (df : list (PhotoRecord T)) : result (list T) :=
  match df with
  | [] => Raise AttributeError
  | _ :: _ => Ok (List.map timestamp df)
  end.

Definition set_timestamp {T U} (r : PhotoRecord T) (t : U) : PhotoRecord U :=
  {| latitude := latitude r; longitude := longitude r;
     altitude := altitude r; filepath := filepath r; timestamp := t |}.

(** [df['timestamp'] = column] *)
Definition assign_timestamp {T U} (df : list (PhotoRecord T)) (column : list U)
  : list (PhotoRecord U) :=
  List.map (fun rt => set_timestamp (fst rt) (snd rt)) (combine df column).

(** The texts pandas reads as a missing time before it tries the
    format: the empty text and the spellings of [NaT] and [nan]. *)
Definition null_text (s : string) : bool :=
  in_list s [""; "NaT"; "nat"; "NAT"; "nan"; "NaN"; "NAN"].

Section Timestamps.

Context {L : Libraries}.

(** [pd.to_datetime(column, format=...)] with the default
    [errors='raise']: [None] and the null texts become [NaT]; any other
    text that does not match the format raises [ValueError] for the whole
    column. *)
Fixpoint to_datetime (column : list (option string))
  : result (list (option Z)) :=
  match column with
  | [] => Ok []
  | None :: column' =>
      match to_datetime column' with
      | Ok ts => Ok (None :: ts)
      | Raise e => Raise e
      end
  | Some s :: column' =>
      if null_text s then
        match to_datetime column' with
        | Ok ts => Ok (None :: ts)
        | Raise e => Raise e
        end
      else
        match strptime s with
        | None => Raise ValueError
        | Some t =>
            match to_datetime column' with
            | Ok ts => Ok (Some t :: ts)
            | Raise e => Raise e
            end
        end
  end.

End Timestamps.

Definition isna (r : PhotoRecord (option Z)) : bool :=
  match timestamp r with
  | None => true
  | Some _ => false
  end.

Definition notna (r : PhotoRecord (option Z)) : bool := negb (isna r).

(** [a] sorts no later than [b]; only used on rows that have a time. *)
Definition ts_leb (a b : PhotoRecord (option Z)) : bool :=
  match timestamp a, timestamp b with
  | Some x, Some y => (x <=? y)%Z
  | _, _ => true
  end.

Fixpoint insert_sorted (r : PhotoRecord (option Z))
    (l : list (PhotoRecord (option Z))) : list (PhotoRecord (option Z)) :=
  match l with
  | [] => [r]
  | x :: l' => if ts_leb r x then r :: x :: l' else x :: insert_sorted r l'
  end.

Fixpoint sort_by_timestamp (l : list (PhotoRecord (option Z)))
  : list (PhotoRecord (option Z)) :=
  match l with
  | [] => []
  | r :: l' => insert_sorted r (sort_by_timestamp l')
  end.

(** [df.sort_values('timestamp')] with its defaults, ascending and
    [na_position='last']: the rows with a time in ascending order, then
    the [NaT] rows in the order they had.  The order pandas gives rows of
    equal time is its sort routine's; here they keep their order. *)
Definition sort_values (df : list (PhotoRecord (option Z)))
  : list (PhotoRecord (option Z)) :=
  (sort_by_timestamp (filter notna df) ++ filter isna df)%list.

(** ** Colour Mapper *)

Fixpoint set_last (l : list Q) (v : Q) : list Q :=
  match l with
  | [] => []
  | [_] => [v]
  | x :: l' => x :: set_last l' v
  end.

(** [np.linspace(start, stop, num)] as numpy computes it: the indices
    [0 .. num-1] scaled by the step, shifted by [start], the last one then
    overwritten with [stop]. *)
Definition linspace (start stop : Q) (num : nat) : list Q :=
  let div := (Z.of_nat num - 1)%Z in
  let delta := stop - start in
  let y := List.map (fun i => inject_Z (Z.of_nat i)) (seq 0 num) in
  let y :=
    if (0 <? div)%Z then
      let step := delta / inject_Z div in
      if Qeq_bool step 0
      then List.map (fun v => v / inject_Z div * delta) y
      else List.map (fun v => v * step) y
    else List.map (fun v => v * delta) y in
  let y := List.map (fun v => v + start) y in
  if (1 <? num)%nat then set_last y stop else y.

(** ** Map Renderer *)

(** [column.max()] and [column.min()]; [nan] on an empty column *)
Definition Series_max (column : list Q) : number :=
  match column with
  | [] => None
  | x :: column' => Some (fold_left Qmax column' x)
  end.

Definition Series_min (column : list Q) : number :=
  match column with
  | [] => None
  | x :: column' => Some (fold_left Qmin column' x)
  end.

Definition number_add (a : number) (b : Q) : number :=
  option_map (fun x => x + b) a.

Definition number_sub (a : number) (b : Q) : number :=
  option_map (fun x => x - b) a.

Section Pipeline.

Context {L : Libraries}.

(** Lines 84 to 86 of [generate_map]. *)
Definition table_builder (res : dict (PhotoRecord (option string)))
  : result (list (PhotoRecord (option Z))) :=
  let df := DataFrame_T res in
  match column_timestamp df with
  | Raise e => Raise e
  | Ok column =>
      match to_datetime column with
      | Raise e => Raise e
      | Ok column' => Ok (sort_values (assign_timestamp df column'))
      end
  end.

(** The marker one iteration of the [for] loop adds. *)
Definition marker (row : PhotoRecord (option Z) * Q) : Child :=
  let '(r, col) := row in
  let photo_url := as_uri (filepath r) in
  CircleMarker (latitude r, longitude r)
    (rgba_to_hex (plasma col)) (rgba_to_hex (plasma col)) 6
    {| photo_url := photo_url; date_text := datetime_as_string (timestamp r) |}.

(** Lines 91 to 119 of [generate_map]: the colour column, the corners,
    the markers and the viewport, in the order they are added to the
    map. *)
Definition render (df : list (PhotoRecord (option Z))) : Map :=
  let color_mapping := linspace 0 1 (List.length df) in
  let sw := (number_add (Series_max (List.map latitude df)) 3,
             number_sub (Series_min (List.map longitude df)) 3) in
  let ne := (number_sub (Series_min (List.map latitude df)) 3,
             number_add (Series_max (List.map longitude df)) 3) in
  let m : Map := [] in
  let m := fold_left (fun m row => (m ++ [marker row])%list)
                     (combine df color_mapping) m in
  (m ++ [FitBounds sw ne])%list.

(** [m.save(map_file)] *)
Definition save (m : Map) (map_file : string) : M unit :=
  fun w => (Ok tt, set_map_html w (Some (map_file, m))).

Definition BASE_LOC : string := "images".

Definition generate_map : M string :=
  res <- read_spatial_data_from_folder BASE_LOC "*.jpg" ;;
  df <- lift (table_builder res) ;;
  let m := render df in
  map_file <- resolve "map.html" ;;
  save m map_file ;;;
  ret map_file.

(** ** Launcher *)

(** [webbrowser.open(uri)] *)
Definition webbrowser_open (uri : string) : M unit :=
  fun w => (Ok tt, set_browser w (browser w ++ [uri])%list).

Definition open_map : M unit :=
  map_file <- generate_map ;;
  webbrowser_open (as_uri map_file).

(** [messagebox.showerror(title, message)] *)
Definition showerror (title message : string) : M unit :=
  fun w => (Ok tt, set_dialogs w (dialogs w ++ [(title, message)])%list).

(** [selection] is what [filedialog.askopenfilename] returns: the chosen
    path, or the empty string when the dialog is cancelled. *)
Definition upload_image (selection : string) : M unit :=
  let file_path := selection in
  if negb (String.eqb file_path "") then
    try_except
      (let dest_path := joinpath "images" (name file_path) in
       Path_replace file_path dest_path ;;;
       generate_map ;;;
       ret tt)
      any_exception
      (fun e =>
         showerror "Upload Error"
           ("An error occurred during upload. "
            ++ "Please ensure you are uploading a valid .jpg image."))
  else ret tt.

End Pipeline.

(** ** Vocabulary of the statements *)

(** The world after the lines [out] have been printed. *)
Definition emit (w : World) (out : list string) : World :=
  set_stdout w (stdout w ++ out)%list.

(** The line the extractor prints when a tag is missing. *)
Definition no_spatial_data : string :=
  "Image does not contain spatial data or data is invalid.".

(** The directory entries a scan of [folder] visits. *)
Definition scanned (folder pattern : string) (w : World)
  : list (string * file) :=
  filter (fun pf => visits folder pattern (fst pf)) (files w).

Definition is_some {A} (o : option A) : bool :=
  match o with
  | Some _ => true
  | None => false
  end.

(** Reading the tag returns a value. *)
Definition is_ok {A} (r : result A) : bool :=
  match r with
  | Ok _ => true
  | Raise _ => false
  end.

(** Reading the tag returns a value or raises an exception that the
    handlers of the program catch. *)
Definition caught {A} (r : result A) : bool :=
  match r with
  | Ok _ => true
  | Raise e => attribute_or_key e
  end.

(** The five tags the extractor reads are all present. *)
Definition has_location (img : Image) : bool :=
  is_ok (gps_latitude img) && is_ok (gps_latitude_ref img)
  && is_ok (gps_longitude img) && is_ok (gps_longitude_ref img)
  && is_ok (gps_altitude img).

(** A hemisphere reference: one of N, S, E, W in either case. *)
Definition valid_ref (r : string) : bool :=
  in_list r ["N"; "n"; "S"; "s"; "E"; "e"; "W"; "w"].

(** A reference the normalizer takes for a hemisphere: a valid one, or
    the long s, which [str.upper] turns into S. *)
Definition taken_ref (r : string) : bool :=
  in_list r ["N"; "n"; "S"; "s"; "E"; "e"; "W"; "w"; long_s].

(** Every hemisphere reference the image carries is valid. *)
Definition refs_valid (img : Image) : bool :=
  match gps_latitude_ref img with
  | Ok r => valid_ref r
  | Raise _ => true
  end
  && match gps_longitude_ref img with
     | Ok r => valid_ref r
     | Raise _ => true
     end.

(** No tag read of the image raises anything but [AttributeError] or
    [KeyError]. *)
Definition tags_caught (img : Image) : bool :=
  caught (gps_latitude img) && caught (gps_latitude_ref img)
  && caught (gps_longitude img) && caught (gps_longitude_ref img)
  && caught (gps_altitude img) && caught (datetime img).

(** The file opens, its tag reads return or raise [AttributeError] or
    [KeyError] only, and its hemisphere references are valid. *)
Definition well_formed (x : file) : bool :=
  match x with
  | Readable img => refs_valid img && tags_caught img
  | Unreadable _ => false
  end.

(** The raw timestamp the scanner stores: the time tag, or [None] when
    reading it raises. *)
Definition raw_timestamp (img : Image) : option string :=
  match datetime img with
  | Ok t => Some t
  | Raise _ => None
  end.

(** The raw timestamp is absent or one of the null texts. *)
Definition reads_null (o : option string) : bool :=
  match o with
  | Some s => null_text s
  | None => true
  end.

(** The exception of the first entry that cannot be opened, if any. *)
Fixpoint first_unreadable (l : list (string * file)) : option exn :=
  match l with
  | [] => None
  | (_, Unreadable e) :: _ => Some e
  | (_, Readable _) :: l' => first_unreadable l'
  end.

(** The signed decimal degrees of a reference the normalizer takes: the
    magnitude, negated for S and W in either case and for the long s,
    which the normalizer takes for S. *)
Definition decimal (coords : Q * Q * Q) (ref : string) : Q :=
  let '(d, m, s) := coords in
  if in_list ref ["S"; "s"; "W"; "w"; long_s]
  then - (d + m / 60 + s / 3600)
  else d + m / 60 + s / 3600.

(** The position of an image: latitude, longitude and altitude, when
    all five tags can be read. *)
Definition location_of (img : Image) : option (Q * Q * Q) :=
  match gps_latitude img, gps_latitude_ref img,
        gps_longitude img, gps_longitude_ref img, gps_altitude img with
  | Ok c, Ok r, Ok c', Ok r', Ok alt =>
      Some (decimal c r, decimal c' r', alt)
  | _, _, _, _, _ => None
  end.

(** The records a scan is expected to build from the entries [l]. *)
Fixpoint records_of (cwd : string) (l : list (string * file))
  : dict (PhotoRecord (option string)) :=
  match l with
  | [] => []
  | (p, Readable img) :: l' =>
      match location_of img with
      | Some (lat, lon, alt) =>
          (p, {| latitude := lat; longitude := lon; altitude := alt;
                 filepath := absolute cwd p;
                 timestamp := raw_timestamp img |})
          :: records_of cwd l'
      | None => records_of cwd l'
      end
  | (_, Unreadable _) :: l' => records_of cwd l'
  end.

(** The file opens and all five location tags can be read. *)
Definition located (x : file) : bool :=
  match x with
  | Readable img => has_location img
  | Unreadable _ => false
  end.

(** The file has all its location tags, and a time tag that is absent
    or one of the null texts. *)
Definition located_untimed (x : file) : bool :=
  match x with
  | Readable img => has_location img && reads_null (raw_timestamp img)
  | Unreadable _ => false
  end.

(** The raw timestamp [o] is absent, a null text, or matches the
    format. *)
Definition parses {L : Libraries} (o : option string) : bool :=
  match o with
  | Some s => null_text s || is_some (strptime s)
  | None => true
  end.

(** The instant of a raw timestamp; [None] is [NaT]. *)
Definition parse {L : Libraries} (o : option string) : option Z :=
  match o with
  | Some s => if null_text s then None else strptime s
  | None => None
  end.

(** A file with a location has no time tag, a null text, or a time tag
    that matches the format. *)
Definition time_parses {L : Libraries} (x : file) : bool :=
  match x with
  | Readable img => negb (has_location img) || parses (raw_timestamp img)
  | Unreadable _ => true
  end.

(** The instant of a row that has one. *)
Definition instant (r : PhotoRecord (option Z)) : Z :=
  match timestamp r with
  | Some t => t
  | None => 0
  end.

(** Two records of the same shot: they agree on everything but the path. *)
Definition same_shot {T} (r r' : PhotoRecord T) : Prop :=
  latitude r = latitude r' /\ longitude r = longitude r'
  /\ altitude r = altitude r' /\ timestamp r = timestamp r'.

(** Two dictionaries with the same keys, in the same order, and records
    of the same shots. *)
Definition same_shots {T} (d d' : dict (PhotoRecord T)) : Prop :=
  Forall2 (fun kv kv' => fst kv = fst kv' /\ same_shot (snd kv) (snd kv')) d d'.

Definition related_results {A} (R : A -> A -> Prop) (r r' : result A) : Prop :=
  match r, r' with
  | Ok a, Ok a' => R a a'
  | Raise e, Raise e' => e = e'
  | _, _ => False
  end.

(** Two computations that leave the files alone and, run in worlds with
    the same files, fail alike or return values related by [R]. *)
Definition related {A} (R : A -> A -> Prop) (m m' : M A) : Prop :=
  forall w w',
    files w = files w' ->
    related_results R (fst (m w)) (fst (m' w'))
    /\ files (snd (m w)) = files w
    /\ files (snd (m' w')) = files w'.

(** Three rows, the last without a time. *)
Definition three_rows : list (PhotoRecord (option Z)) :=
  [ {| latitude := 1; longitude := 2; altitude := 0;
       filepath := "a"; timestamp := Some 10%Z |};
    {| latitude := 3; longitude := 4; altitude := 0;
       filepath := "b"; timestamp := Some 20%Z |};
    {| latitude := 5; longitude := 6; altitude := 0;
       filepath := "c"; timestamp := None |} ].

(** What the claims observe of a map: where each marker is and how it is
    coloured. *)
Definition colours_and_coordinates (m : Map)
  : list (Q * Q * string * string) :=
  flat_map (fun c =>
              match c with
              | CircleMarker loc col fill _ _ => [(loc, col, fill)]
              | FitBounds _ _ => []
              end) m.

(** What a run of the pipeline leaves to observe: the exception, or the
    markers of the document it wrote. *)
Definition outcome (run : result string * World)
  : result (list (Q * Q * string * string)) :=
  match fst run with
  | Raise e => Raise e
  | Ok _ =>
      match map_html (snd run) with
      | Some (_, m) => Ok (colours_and_coordinates m)
      | None => Ok []
      end
  end.

(** [x] is a greatest, resp. least, element of [l]. *)
Definition is_max (x : Q) (l : list Q) : Prop :=
  In x l /\ forall y, In y l -> y <= x.

Definition is_min (x : Q) (l : list Q) : Prop :=
  In x l /\ forall y, In y l -> x <= y.

(** ** A concrete instance and concrete folders

    An instance of [Libraries] on which the program can be run: the
    timestamp reader accepts the 19-character form
    ["YYYY:MM:DD HH:MM:SS"] and counts seconds from 1970-01-01; the colour
    map is a grey ramp and the formatters are plain.  They stand in for
    pandas, numpy, matplotlib and pathlib in the examples; every general
    theorem is proved for all instances. *)

Definition digit_value (c : ascii) : option Z :=
  let n := nat_of_ascii c in
  if ((48 <=? n) && (n <=? 57))%nat then Some (Z.of_nat (n - 48)) else None.

Fixpoint digits_value (acc : Z) (s : string) : option Z :=
  match s with
  | EmptyString => Some acc
  | String c s' =>
      match digit_value c with
      | None => None
      | Some d => digits_value (10 * acc + d)%Z s'
      end
  end.

Definition field (start len : nat) (s : string) : option Z :=
  digits_value 0 (substring start len s).

Definition separator (at_ : nat) (c : ascii) (s : string) : bool :=
  match get at_ s with
  | Some c' => Ascii.eqb c c'
  | None => false
  end.

Definition leap_year (y : Z) : bool :=
  ((y mod 4 =? 0) && (negb (y mod 100 =? 0) || (y mod 400 =? 0)))%Z.

Definition days_in_month (y m : Z) : Z :=
  (if m =? 2 then (if leap_year y then 29 else 28)
   else if (m =? 4) || (m =? 6) || (m =? 9) || (m =? 11) then 30
   else 31)%Z.

Definition days_from_civil (y m d : Z) : Z :=
  (let y' := if m <=? 2 then y - 1 else y in
   let era := y' / 400 in
   let yoe := y' - era * 400 in
   let doy := (153 * (m + (if 2 <? m then -3 else 9)) + 2) / 5 + d - 1 in
   let doe := yoe * 365 + yoe / 4 - yoe / 100 + doy in
   era * 146097 + doe - 719468)%Z.

Definition sample_strptime (s : string) : option Z :=
  if (String.length s =? 19)%nat
     && separator 4 ":" s && separator 7 ":" s && separator 10 " " s
     && separator 13 ":" s && separator 16 ":" s
  then
    match field 0 4 s, field 5 2 s, field 8 2 s,
          field 11 2 s, field 14 2 s, field 17 2 s with
    | Some y, Some m, Some d, Some hh, Some mm, Some ss =>
        if ((1 <=? m) && (m <=? 12) && (1 <=? d) && (d <=? days_in_month y m)
            && (hh <? 24) && (mm <? 60) && (ss <? 60))%Z
        then Some (days_from_civil y m d * 86400 + hh * 3600 + mm * 60 + ss)%Z
        else None
    | _, _, _, _, _, _ => None
    end
  else None.

Definition grey (x : Q) : Byte.byte :=
  match Byte.of_N (Z.to_N (Z.min 255 (Z.max 0 (Qfloor (x * 255))))) with
  | Some b => b
  | None => Byte.xff
  end.

Definition sample_libraries : Libraries := {|
  strptime := sample_strptime;
  datetime_as_string := fun t =>
    match t with
    | None => "NaT"
    | Some z => if (z <? 0)%Z then "before 1970" else "since 1970"
    end;
  plasma := fun x => (grey x, grey x, grey x, Byte.xff);
  as_uri := fun p => "file://" ++ p
|}.

(** A world in which the operating system refuses no move. *)
Definition world_of (fs : list (string * file)) : World :=
  {| cwd := "/home/user/Photo2Map"; files := fs; map_html := None;
     stdout := []; dialogs := []; browser := [];
     replace_error := fun _ _ => None |}.

(** The time tag of a photograph that has the text [dt], or none. *)
Definition time_tag (dt : option string) : result string :=
  match dt with
  | Some t => Ok t
  | None => Raise AttributeError
  end.

(** A photograph taken at 48°51'30"N 2°17'40"E, 35 m up. *)
Definition paris (dt : option string) : Image :=
  {| gps_latitude := Ok (48, 51, 30); gps_latitude_ref := Ok "N";
     gps_longitude := Ok (2, 17, 40); gps_longitude_ref := Ok "E";
     gps_altitude := Ok 35; datetime := time_tag dt |}.

(** A photograph taken at 33°51'25"S 151°12'55"E, 5 m up. *)
Definition sydney (dt : option string) : Image :=
  {| gps_latitude := Ok (33, 51, 25); gps_latitude_ref := Ok "S";
     gps_longitude := Ok (151, 12, 55); gps_longitude_ref := Ok "E";
     gps_altitude := Ok 5; datetime := time_tag dt |}.

(** A photograph taken at 40°41'21"N 74°2'40"W, 10 m up. *)
Definition new_york (dt : option string) : Image :=
  {| gps_latitude := Ok (40, 41, 21); gps_latitude_ref := Ok "N";
     gps_longitude := Ok (74, 2, 40); gps_longitude_ref := Ok "w";
     gps_altitude := Ok 10; datetime := time_tag dt |}.

(** A photograph whose latitude reference is the letter X. *)
Definition bad_reference : Image :=
  {| gps_latitude := Ok (48, 51, 30); gps_latitude_ref := Ok "X";
     gps_longitude := Ok (2, 17, 40); gps_longitude_ref := Ok "E";
     gps_altitude := Ok 35; datetime := Ok "2024:05:01 10:00:00" |}.


(** A photograph without any location tag. *)
Definition no_gps : Image :=
  {| gps_latitude := Raise AttributeError;
     gps_latitude_ref := Raise AttributeError;
     gps_longitude := Raise AttributeError;
     gps_longitude_ref := Raise AttributeError;
     gps_altitude := Raise AttributeError;
     datetime := Ok "2024:05:01 10:00:00" |}.

(** A file without EXIF segment: every tag read raises [KeyError]. *)
Definition no_metadata : Image :=
  {| gps_latitude := Raise KeyError; gps_latitude_ref := Raise KeyError;
     gps_longitude := Raise KeyError; gps_longitude_ref := Raise KeyError;
     gps_altitude := Raise KeyError; datetime := Raise KeyError |}.

(** A photograph whose EXIF data is damaged: reading the latitude raises
    the library's [UnpackError]. *)
Definition damaged : Image :=
  {| gps_latitude := Raise UnpackError; gps_latitude_ref := Ok "N";
     gps_longitude := Ok (2, 17, 40); gps_longitude_ref := Ok "E";
     gps_altitude := Ok 35; datetime := Ok "2024:05:01 10:00:00" |}.

(** Concrete folders. *)

Definition may_day : string := "2024:05:01 10:00:00".
Definition new_year's_eve : string := "2023:12:31 23:59:59".


(** One file with the reference X, followed by a good photograph. *)
Definition folder_with_bad_reference : World :=
  world_of [("images/a.jpg", Readable bad_reference);
            ("images/b.jpg", Readable (paris (Some may_day)))].


(** A photograph whose time tag is not in the expected form. *)
Definition folder_with_malformed_time : World :=
  world_of [("images/a.jpg", Readable (paris (Some "yesterday at noon")));
            ("images/b.jpg", Readable (sydney (Some may_day)))].

(** Three located photographs, one of them without a time tag, one file
    without location tags, one without metadata, and two files the scan
    does not visit. *)
Definition holiday : World :=
  world_of [("images/a.jpg", Readable (paris (Some may_day)));
            ("images/c.png", Unreadable OSError);
            ("images/d.jpg", Readable (new_york (Some new_year's_eve)));
            ("images/e.jpg", Readable no_gps);
            ("images/f.jpg", Readable no_metadata);
            ("images/sub/b.jpg", Readable (sydney None));
            ("notes/c.jpg", Readable bad_reference)].

(** Four located photographs: one with a time, one with an empty time
    tag, one with the text NaT, one without time tag. *)
Definition folder_with_null_times : World :=
  world_of [("images/a.jpg", Readable (paris (Some may_day)));
            ("images/b.jpg", Readable (sydney (Some "")));
            ("images/c.jpg", Readable (new_york (Some "NaT")));
            ("images/d.jpg", Readable (paris None))].

(** A good photograph, followed by one whose metadata is damaged. *)
Definition folder_with_damaged : World :=
  world_of [("images/a.jpg", Readable (paris (Some may_day)));
            ("images/b.jpg", Readable damaged)].

(** No photograph at all. *)
Definition empty_folder : World := world_of [].

(** The same files seen from another working directory, after earlier
    runs have printed and written a document. *)
Definition holiday_elsewhere : World :=
  {| cwd := "/mnt/backup"; files := files holiday;
     map_html := Some ("/mnt/backup/map.html", []);
     stdout := ["an earlier line"]; dialogs := [("Upload Error", "earlier")];
     browser := []; replace_error := fun _ _ => None |}.

(** The records of [holiday] and the table built from them. *)
Definition holiday_records : dict (PhotoRecord (option string)) :=
  records_of (cwd holiday) (scanned BASE_LOC "*.jpg" holiday).

Definition holiday_table : list (PhotoRecord (option Z)) :=
  match @table_builder sample_libraries holiday_records with
  | Ok table => table
  | Raise _ => []
  end.

(** ** Vocabulary of the further statements *)

(** The line the normalizer prints for the reference [ref]. *)
Definition incorrect_reference (ref : string) : string :=
  "Incorrect hemisphere reference. "
  ++ "Expecting one of 'N', 'S', 'E' or 'W', "
  ++ "got " ++ ref ++ " instead.".

(** Every hemisphere reference the image carries is one the normalizer
    takes. *)
Definition refs_taken (img : Image) : bool :=
  match gps_latitude_ref img with
  | Ok r => taken_ref r
  | Raise _ => true
  end
  && match gps_longitude_ref img with
     | Ok r => taken_ref r
     | Raise _ => true
     end.

(** Reading one of the five location tags of the image raises [e]. *)
Definition location_tag_raises (img : Image) (e : exn) : Prop :=
  gps_latitude img = Raise e \/ gps_latitude_ref img = Raise e
  \/ gps_longitude img = Raise e \/ gps_longitude_ref img = Raise e
  \/ gps_altitude img = Raise e.

(** Reading one of the six tags the scan reads raises [e]. *)
Definition tag_raises (img : Image) (e : exn) : Prop :=
  location_tag_raises img e \/ datetime img = Raise e.

(** The dialog [upload_image] shows when something goes wrong. *)
Definition upload_error : string * string :=
  ("Upload Error",
   "An error occurred during upload. "
   ++ "Please ensure you are uploading a valid .jpg image.").

(** The computation changes nothing of the world but the printed lines,
    which it only extends. *)
Definition only_prints {A} (m : M A) : Prop :=
  forall w, exists out, snd (m w) = emit w out.

(** The value of an upper-case hexadecimal digit, read from its character
    code. *)
Definition hex_value (c : ascii) : option N :=
  let n := N_of_ascii c in
  if ((48 <=? n) && (n <=? 57))%N then Some (n - 48)%N
  else if ((65 <=? n) && (n <=? 70))%N then Some (n - 55)%N
  else None.

Definition byte_of_hex (hi lo : ascii) : option Byte.byte :=
  match hex_value hi, hex_value lo with
  | Some h, Some l => Byte.of_N (16 * h + l)
  | _, _ => None
  end.

(** The three channels of a string of the form [#RRGGBB] in upper-case
    hexadecimal digits; [None] for any other string. *)
Definition hex_to_rgb (s : string) : option (Byte.byte * Byte.byte * Byte.byte) :=
  match s with
  | String "#" (String r1 (String r2 (String g1 (String g2
      (String b1 (String b2 EmptyString)))))) =>
      match byte_of_hex r1 r2, byte_of_hex g1 g2, byte_of_hex b1 b2 with
      | Some r, Some g, Some b => Some (r, g, b)
      | _, _, _ => None
      end
  | _ => None
  end.

(** No character of [s] is a slash. *)
Fixpoint no_slash (s : string) : bool :=
  match s with
  | EmptyString => true
  | String c s' => negb (Ascii.eqb c "/") && no_slash s'
  end.

(** A folder with two photographs and, outside it, a photograph to
    upload. *)
Definition before_upload : World :=
  world_of [("images/a.jpg", Readable (paris (Some may_day)));
            ("/home/user/Pictures/new.jpg", Readable (sydney None));
            ("images/b.jpg", Readable (new_york (Some new_year's_eve)))].

(** The same folder on a machine where the operating system refuses
    every move: the pictures are on another file system. *)
Definition upload_refused : World :=
  {| cwd := cwd before_upload; files := files before_upload;
     map_html := None; stdout := []; dialogs := []; browser := [];
     replace_error := fun _ _ => Some OSError |}.

(** * Theorems *)

Lemma Qmult_one_l (x : Q) : inject_Z 1 * x = x.
Proof. destruct x as [a b]; unfold Qmult; simpl; destruct a; reflexivity. Qed.

Lemma Qmult_minus_one_l (x : Q) : inject_Z (-1) * x = - x.
Proof. destruct x as [a b]; unfold Qmult, Qopp; simpl; destruct a; reflexivity. Qed.

(** C4. For a hemisphere reference N or E, in either case,
    [convert_coords_to_decimal] returns [deg + min/60 + sec/3600]; for S
    or W it returns the negation of that magnitude.  Nothing is printed
    and nothing else changes. *)
Theorem convert_coords_to_decimal_signed (deg min sec : Q) (ref : string)
    (w : World) :
  (In ref ["N"; "n"; "E"; "e"] ->
   convert_coords_to_decimal (deg, min, sec) ref w
   = (Ok (deg + min / 60 + sec / 3600), w))
  /\
  (In ref ["S"; "s"; "W"; "w"] ->
   convert_coords_to_decimal (deg, min, sec) ref w
   = (Ok (- (deg + min / 60 + sec / 3600)), w)).
Proof.
  split; intros H; simpl in H;
    repeat (destruct H as [H | H]; [subst ref | ]); try contradiction;
    unfold convert_coords_to_decimal, bind, ret; simpl;
    rewrite ?Qmult_one_l, ?Qmult_minus_one_l; reflexivity.
Qed.

(** C4 at a northern and at a southern position. *)
Lemma convert_coords_to_decimal_signed_witness :
  convert_coords_to_decimal (48, 51, 30) "n" empty_folder
  = (Ok (48 + 51 / 60 + 30 / 3600), empty_folder)
  /\ convert_coords_to_decimal (33, 51, 25) "S" empty_folder
     = (Ok (- (33 + 51 / 60 + 25 / 3600)), empty_folder).
Proof.
  split.
  - apply (proj1 (convert_coords_to_decimal_signed 48 51 30 "n" empty_folder)).
    simpl. auto.
  - apply (proj2 (convert_coords_to_decimal_signed 33 51 25 "S" empty_folder)).
    simpl. auto.
Defined.

(** ** Printing *)

Lemma emit_nil (w : World) : emit w [] = w.
Proof. destruct w; unfold emit, set_stdout; simpl; now rewrite app_nil_r. Qed.

Lemma emit_emit (w : World) (a b : list string) :
  emit (emit w a) b = emit w (a ++ b)%list.
Proof. unfold emit, set_stdout; simpl; now rewrite app_assoc. Qed.

Lemma cwd_emit (w : World) (out : list string) : cwd (emit w out) = cwd w.
Proof. reflexivity. Qed.

Lemma files_emit (w : World) (out : list string) : files (emit w out) = files w.
Proof. reflexivity. Qed.

Lemma print_emit (s : string) (w : World) : print s w = (Ok tt, emit w [s]).
Proof. reflexivity. Qed.

(** ** Membership tests *)

Lemma in_list_In (x : string) (l : list string) :
  in_list x l = true <-> In x l.
Proof.
  induction l as [|y l IH]; simpl.
  - split; [discriminate | contradiction].
  - rewrite orb_true_iff, IH, String.eqb_eq. split; intros [H | H]; auto.
Qed.

(** ** The normalizer *)

Lemma convert_coords_to_decimal_taken (coords : Q * Q * Q) (ref : string)
    (w : World) :
  taken_ref ref = true ->
  convert_coords_to_decimal coords ref w = (Ok (decimal coords ref), w).
Proof.
  intros H. apply in_list_In in H. destruct coords as [[d m] s].
  simpl in H.
  repeat (destruct H as [H | H]; [subst ref | ]); try contradiction;
    unfold convert_coords_to_decimal, decimal, bind, ret; simpl;
    rewrite ?Qmult_one_l, ?Qmult_minus_one_l; reflexivity.
Qed.

Lemma valid_taken (ref : string) : valid_ref ref = true -> taken_ref ref = true.
Proof.
  unfold valid_ref, taken_ref. rewrite !in_list_In. simpl. tauto.
Qed.

Lemma upper_ascii_letter (c : ascii) :
  In (upper_ascii c) ["N"; "S"; "E"; "W"]%char ->
  In c ["N"; "n"; "S"; "s"; "E"; "e"; "W"; "w"]%char.
Proof.
  destruct c as [[] [] [] [] [] [] [] []]; cbv;
    intros H; repeat (destruct H as [H | H]; [try discriminate H|]);
    try contradiction; auto 10.
Qed.

Lemma upper_empty (s : string) : upper s = EmptyString -> s = EmptyString.
Proof.
  destruct s as [|c [|c' s'']]; simpl; [reflexivity | discriminate|].
  destruct (Ascii.eqb c "197" && Ascii.eqb c' "191"); discriminate.
Qed.

Lemma upper_two (c c' : ascii) (s : string) :
  upper (String c (String c' s))
  = if Ascii.eqb c "197" && Ascii.eqb c' "191"
    then String "S" (upper s)
    else String (upper_ascii c) (upper (String c' s)).
Proof. reflexivity. Qed.

Lemma upper_letter (r : string) :
  In (upper r) ["W"; "S"; "E"; "N"] -> taken_ref r = true.
Proof.
  intros H. apply in_list_In.
  destruct r as [|c [|c' r]].
  - simpl in H. intuition discriminate.
  - simpl in H.
    assert (Hc : In (upper_ascii c) ["N"; "S"; "E"; "W"]%char).
    { simpl. destruct H as [H | [H | [H | [H | []]]]];
        inversion H; auto. }
    apply upper_ascii_letter in Hc. simpl in Hc. simpl.
    repeat (destruct Hc as [Hc | Hc]; [subst c; auto 10|]). contradiction.
  - rewrite upper_two in H.
    destruct (Ascii.eqb c "197" && Ascii.eqb c' "191") eqn:E.
    + apply andb_true_iff in E. destruct E as [E1 E2].
      apply Ascii.eqb_eq in E1, E2. subst c c'.
      assert (Hr : upper r = EmptyString)
        by (simpl in H; destruct H as [H | [H | [H | [H | []]]]];
            now inversion H).
      apply upper_empty in Hr. subst r. simpl. auto 10.
    + assert (Hr : upper (String c' r) = EmptyString)
        by (simpl in H; destruct H as [H | [H | [H | [H | []]]]];
            now inversion H).
      apply upper_empty in Hr. discriminate.
Qed.

(** For a reference the normalizer does not take, it prints its message
    and then raises: no number is returned. *)
Lemma convert_coords_to_decimal_invalid (coords : Q * Q * Q) (ref : string)
    (w : World) :
  taken_ref ref = false ->
  convert_coords_to_decimal coords ref w
  = (Raise UnboundLocalError,
     emit w ["Incorrect hemisphere reference. "
             ++ "Expecting one of 'N', 'S', 'E' or 'W', "
             ++ "got " ++ ref ++ " instead."]).
Proof.
  intros H. destruct coords as [[d m] s].
  unfold convert_coords_to_decimal.
  destruct (in_list (upper ref) ["W"; "S"]) eqn:E1.
  - apply in_list_In in E1. rewrite upper_letter in H; [discriminate|].
    simpl in *. tauto.
  - destruct (in_list (upper ref) ["E"; "N"]) eqn:E2.
    + apply in_list_In in E2. rewrite upper_letter in H; [discriminate|].
      simpl in *. tauto.
    + reflexivity.
Qed.

(** ** The extractor *)

Lemma has_location_of (img : Image) :
  has_location img = is_some (location_of img).
Proof.
  unfold has_location, location_of.
  destruct (gps_latitude img), (gps_latitude_ref img), (gps_longitude img),
    (gps_longitude_ref img), (gps_altitude img); reflexivity.
Qed.

(** A tag read that raises, inside the guarded block: the handler prints
    and re-raises what it catches and lets the rest through. *)
Ltac tag_read_raises e :=
  destruct (attribute_or_key e) eqn:?;
  [ right; left; exists e; repeat split; unfold location_tag_raises; auto 10
  | right; right; right; exists e; repeat split;
    unfold location_tag_raises; auto 10 ].

Lemma get_decimal_coord_from_exif_cases (img : Image) (w : World) :
  (exists c,
      get_decimal_coord_from_exif img w = (Ok c, w)
      /\ location_of img = Some c /\ refs_taken img = true)
  \/ (exists e,
         get_decimal_coord_from_exif img w
         = (Raise e, emit w [no_spatial_data])
         /\ attribute_or_key e = true
         /\ has_location img = false
         /\ location_tag_raises img e)
  \/ (exists r,
         get_decimal_coord_from_exif img w
         = (Raise UnboundLocalError, emit w [incorrect_reference r])
         /\ taken_ref r = false
         /\ (gps_latitude_ref img = Ok r \/ gps_longitude_ref img = Ok r))
  \/ (exists e,
         get_decimal_coord_from_exif img w = (Raise e, w)
         /\ attribute_or_key e = false
         /\ location_tag_raises img e).
Proof.
  unfold refs_taken, location_of, has_location, get_decimal_coord_from_exif.
  destruct img as [la lar lo lor al dt]; cbn [gps_latitude gps_latitude_ref
    gps_longitude gps_longitude_ref gps_altitude].
  cbv beta iota delta [try_except bind attr raise].
  destruct la as [c | e]; [|tag_read_raises e].
  destruct lar as [r | e]; [|cbv beta iota delta [ret]; tag_read_raises e].
  cbv beta iota delta [ret].
  destruct (taken_ref r) eqn:Hr.
  - rewrite (convert_coords_to_decimal_taken c r w Hr).
    destruct lo as [c' | e]; [|tag_read_raises e].
    destruct lor as [r' | e]; [|tag_read_raises e].
    destruct (taken_ref r') eqn:Hr'.
    + rewrite (convert_coords_to_decimal_taken c' r' w Hr').
      destruct al as [alt | e]; [|tag_read_raises e].
      left. eexists. repeat split.
    + rewrite (convert_coords_to_decimal_invalid c' r' w Hr').
      right; right; left. exists r'. cbn [attribute_or_key]. auto.
  - rewrite (convert_coords_to_decimal_invalid c r w Hr).
    right; right; left. exists r. cbn [attribute_or_key]. auto.
Qed.

Lemma tags_caught_location (img : Image) (e : exn) :
  tags_caught img = true -> location_tag_raises img e ->
  attribute_or_key e = true.
Proof.
  unfold tags_caught, location_tag_raises. intros H.
  repeat (apply andb_true_iff in H; destruct H as [H ?]).
  intros [E | [E | [E | [E | E]]]]; rewrite E in *; assumption.
Qed.

Lemma refs_valid_taken (img : Image) :
  refs_valid img = true -> refs_taken img = true.
Proof.
  unfold refs_valid, refs_taken. intros H. apply andb_true_iff in H.
  destruct H as [H1 H2].
  destruct (gps_latitude_ref img), (gps_longitude_ref img);
    rewrite ?valid_taken by assumption; reflexivity.
Qed.

Lemma refs_taken_ref (img : Image) (r : string) :
  refs_taken img = true ->
  gps_latitude_ref img = Ok r \/ gps_longitude_ref img = Ok r ->
  taken_ref r = true.
Proof.
  unfold refs_taken. intros H. apply andb_true_iff in H. destruct H as [H1 H2].
  intros [E | E]; rewrite E in *; assumption.
Qed.

(** An image whose tag reads raise nothing the handlers miss and whose
    references are valid: the extractor returns the position, or prints
    its line and raises what a handler catches. *)
Lemma get_decimal_coord_from_exif_valid (img : Image) (w : World) :
  refs_valid img = true -> tags_caught img = true ->
  match location_of img with
  | Some c => get_decimal_coord_from_exif img w = (Ok c, w)
  | None =>
      exists e,
        attribute_or_key e = true
        /\ get_decimal_coord_from_exif img w
           = (Raise e, emit w [no_spatial_data])
  end.
Proof.
  intros Hrefs Htags.
  destruct (get_decimal_coord_from_exif_cases img w)
    as [[c [E [Hc _]]] | [[e [E [He [Hl _]]]] | [[r [_ [Hr Hi]]] | [e [_ [He Hi]]]]]].
  - now rewrite Hc.
  - rewrite has_location_of in Hl.
    destruct (location_of img); [discriminate|]. now exists e.
  - rewrite (refs_taken_ref img r (refs_valid_taken img Hrefs) Hi) in Hr.
    discriminate.
  - rewrite (tags_caught_location img e Htags Hi) in He. discriminate.
Qed.

(** ** Dictionaries *)

Lemma lookup_In {V} (k : string) (v : V) (d : dict V) :
  NoDup (List.map fst d) -> In (k, v) d -> lookup k d = Some v.
Proof.
  induction d as [|[k' v'] d IH]; simpl; intros ND HI; [contradiction|].
  inversion ND as [|? ? Hnot ND']; subst.
  destruct HI as [HI | HI].
  - inversion HI; subst. now rewrite String.eqb_refl.
  - destruct (String.eqb_spec k k') as [->|_]; [|now apply IH].
    exfalso. apply Hnot. change k' with (fst (k', v)). now apply in_map.
Qed.

Lemma lookup_None {V} (k : string) (d : dict V) :
  lookup k d = None <-> ~ In k (List.map fst d).
Proof.
  induction d as [|[k' v'] d IH]; simpl.
  - tauto.
  - destruct (String.eqb_spec k k') as [->|Hne].
    + split; [discriminate | intros H; exfalso; apply H; now left].
    + rewrite IH. split; intros H; [intros [E | HI]; [congruence | tauto] | tauto].
Qed.

Lemma dict_set_fresh {V} (k : string) (v : V) (d : dict V) :
  ~ In k (List.map fst d) -> dict_set k v d = (d ++ [(k, v)])%list.
Proof.
  induction d as [|[k' v'] d IH]; simpl; intros H; [reflexivity|].
  destruct (String.eqb_spec k k') as [->|_]; [tauto|].
  rewrite IH; tauto.
Qed.

Lemma dict_set_keys {V} (k f : string) (v : V) (d : dict V) :
  In k (List.map fst (dict_set f v d)) -> k = f \/ In k (List.map fst d).
Proof.
  induction d as [|[k' v'] d IH]; simpl.
  - intros [E | []]. now left.
  - destruct (String.eqb_spec f k') as [->|_]; simpl.
    + intros [E | H]; auto.
    + intros [E | H]; auto. destruct (IH H); auto.
Qed.

Lemma filter_map_fst {V} (f : string -> bool) (l : list (string * V)) :
  filter f (List.map fst l) = List.map fst (filter (fun pf => f (fst pf)) l).
Proof.
  induction l as [|[k v] l IH]; simpl; [reflexivity|].
  destruct (f k); simpl; now rewrite IH.
Qed.

Lemma NoDup_map_fst_filter {V} (f : string * V -> bool) (l : list (string * V)) :
  NoDup (List.map fst l) -> NoDup (List.map fst (filter f l)).
Proof.
  induction l as [|x l IH]; simpl; intros ND; [constructor|].
  inversion ND as [|? ? Hnot ND']; subst.
  destruct (f x); simpl; [|now apply IH].
  constructor; [|now apply IH].
  intros HI. apply Hnot. apply in_map_iff in HI. destruct HI as [y [E HI]].
  apply filter_In in HI. apply in_map_iff. exists y. tauto.
Qed.

(** ** Opening the files *)

(** The images of a list of entries that are all readable. *)
Lemma read_all (w : World) (l : list (string * file)) :
  NoDup (List.map fst (files w)) -> incl l (files w) ->
  exists images,
    mapM read_exif_data (List.map fst l) w
    = match first_unreadable l with
      | Some e => (Raise e, w)
      | None => (Ok images, w)
      end
    /\ (first_unreadable l = None ->
        l = List.map (fun pi => (fst pi, Readable (snd pi)))
              (combine (List.map fst l) images)).
Proof.
  intros ND. induction l as [|[p x] l IH]; intros Hincl.
  - exists []. split; [reflexivity|]. reflexivity.
  - assert (Hl : incl l (files w)) by (intros y Hy; apply Hincl; now right).
    destruct (IH Hl) as [images [E Hshape]].
    assert (Hp : lookup p (files w) = Some x)
      by (apply lookup_In; [assumption | apply Hincl; now left]).
    simpl. unfold bind at 1. unfold read_exif_data at 1. rewrite Hp.
    destruct x as [e | img].
    + exists []. split; [reflexivity | discriminate].
    + exists (img :: images). unfold bind at 1. rewrite E.
      destruct (first_unreadable l) as [e|].
      * split; [reflexivity | discriminate].
      * split; [reflexivity|]. intros _. simpl. f_equal. now apply Hshape.
Qed.

(** ** The loop of the scanner *)

Lemma tags_caught_datetime (img : Image) (e : exn) :
  tags_caught img = true -> datetime img = Raise e ->
  attribute_or_key e = true.
Proof.
  unfold tags_caught. intros H E. apply andb_true_iff in H.
  destruct H as [_ H]. now rewrite E in H.
Qed.

Lemma scan_files_valid (pairs : list (string * Image)) :
  forall (d : dict (PhotoRecord (option string))) (w : World),
    (forall p img, In (p, img) pairs -> well_formed (Readable img) = true) ->
    NoDup (List.map fst pairs) ->
    (forall p, In p (List.map fst pairs) -> ~ In p (List.map fst d)) ->
    exists out,
      scan_files pairs d w
      = (Ok (d ++ records_of (cwd w)
                    (List.map (fun pi => (fst pi, Readable (snd pi))) pairs))%list,
         emit w out).
Proof.
  induction pairs as [|[f img] pairs IH]; intros d w Hwf ND Hfresh.
  - exists []. simpl. unfold ret. now rewrite app_nil_r, emit_nil.
  - inversion ND as [|? ? Hnot ND']; subst.
    assert (Hwf' : forall p i, In (p, i) pairs -> well_formed (Readable i) = true)
      by (intros p i Hi; apply (Hwf p i); now right).
    assert (Himg : refs_valid img = true /\ tags_caught img = true)
      by (apply andb_true_iff, (Hwf f img); now left).
    destruct Himg as [Hrefs Htags].
    pose proof (get_decimal_coord_from_exif_valid img w Hrefs Htags) as Hg.
    simpl scan_files. unfold bind at 1. unfold try_except at 1.
    unfold bind at 1.
    simpl List.map. simpl records_of.
    destruct (location_of img) as [[[lat lon] alt]|].
    + rewrite Hg. cbv beta iota delta [bind try_except ret resolve attr raise].
      assert (Hd : forall w0 (ts : option string),
                 exists out,
                   scan_files pairs
                     (dict_set f {| latitude := lat; longitude := lon;
                                    altitude := alt;
                                    filepath := absolute (cwd w) f;
                                    timestamp := ts |} d) (emit w w0)
                   = (Ok (d ++ (f, {| latitude := lat; longitude := lon;
                                      altitude := alt;
                                      filepath := absolute (cwd w) f;
                                      timestamp := ts |})
                            :: records_of (cwd w)
                                 (List.map (fun pi => (fst pi, Readable (snd pi)))
                                    pairs))%list,
                      emit w out)).
      { intros w0 ts.
        rewrite dict_set_fresh by (apply Hfresh; now left).
        destruct (IH (d ++ [(f, {| latitude := lat; longitude := lon;
                                   altitude := alt;
                                   filepath := absolute (cwd w) f;
                                   timestamp := ts |})])%list
                    (emit w w0) Hwf' ND') as [out E].
        - intros p Hp HI. rewrite map_app in HI. apply in_app_or in HI.
          destruct HI as [HI | [HI | []]].
          + apply (Hfresh p); [now right | assumption].
          + simpl in HI. subst p. contradiction.
        - exists (w0 ++ out)%list. rewrite E, emit_emit, cwd_emit.
          now rewrite <- app_assoc. }
      unfold raw_timestamp.
      destruct (datetime img) as [t|e] eqn:Hdt.
      * destruct (Hd [] (Some t)) as [out E]. rewrite emit_nil in E.
        exists out. exact E.
      * rewrite (tags_caught_datetime img e Htags Hdt).
        destruct (Hd ["Photo " ++ name f
                      ++ " does not contain datetime information."] None)
          as [out E].
        exists out. exact E.
    + destruct Hg as [e [He Hg]]. rewrite Hg, He.
      cbv beta iota delta [bind try_except ret].
      destruct (IH d (emit w [no_spatial_data]) Hwf' ND') as [out E].
      * intros p Hp. apply Hfresh. now right.
      * exists ([no_spatial_data] ++ out)%list.
        rewrite E, emit_emit, cwd_emit. reflexivity.
Qed.

(** The loop on any pairs.  It returns a dictionary whose new keys are
    files with all five location tags, or it raises: [UnboundLocalError]
    at a reference the normalizer does not take, or what a tag read
    raises and the handlers do not catch.  It only prints. *)
Lemma scan_files_outcomes (pairs : list (string * Image)) :
  forall (d : dict (PhotoRecord (option string))) (w : World),
    (exists d' out,
        scan_files pairs d w = (Ok d', emit w out)
        /\ forall k, In k (List.map fst d') ->
             In k (List.map fst d)
             \/ exists img, In (k, img) pairs /\ has_location img = true)
    \/ (exists out p img r,
           scan_files pairs d w = (Raise UnboundLocalError, emit w out)
           /\ In (p, img) pairs /\ taken_ref r = false
           /\ (gps_latitude_ref img = Ok r \/ gps_longitude_ref img = Ok r))
    \/ (exists out p img e,
           scan_files pairs d w = (Raise e, emit w out)
           /\ In (p, img) pairs /\ attribute_or_key e = false
           /\ tag_raises img e).
Proof.
  induction pairs as [|[f img] pairs IH]; intros d w.
  - left. exists d, []. split.
    + simpl. unfold ret. now rewrite emit_nil.
    + intros k H. now left.
  - assert (Hrest : forall d0 out0,
               (forall k, In k (List.map fst d0) ->
                          In k (List.map fst d)
                          \/ (k = f /\ has_location img = true)) ->
               (exists d' out,
                   scan_files pairs d0 (emit w out0) = (Ok d', emit w out)
                   /\ forall k, In k (List.map fst d') ->
                        In k (List.map fst d)
                        \/ exists i, In (k, i) ((f, img) :: pairs)
                                     /\ has_location i = true)
               \/ (exists out p i r,
                      scan_files pairs d0 (emit w out0)
                      = (Raise UnboundLocalError, emit w out)
                      /\ In (p, i) ((f, img) :: pairs) /\ taken_ref r = false
                      /\ (gps_latitude_ref i = Ok r
                          \/ gps_longitude_ref i = Ok r))
               \/ (exists out p i e,
                      scan_files pairs d0 (emit w out0) = (Raise e, emit w out)
                      /\ In (p, i) ((f, img) :: pairs)
                      /\ attribute_or_key e = false /\ tag_raises i e)).
    { intros d0 out0 Hd0. destruct (IH d0 (emit w out0))
        as [[d' [out [E Hk]]] | [[out [p [i [r [E [Hi Hr]]]]]]
                                | [out [p [i [e [E [Hi He]]]]]]]].
      - left. exists d', (out0 ++ out)%list. split.
        + now rewrite E, emit_emit.
        + intros k Hin. destruct (Hk k Hin) as [H0 | [i [Hi Hl]]].
          * destruct (Hd0 k H0) as [H | [-> Hl]]; [now left|].
            right. exists img. split; [now left | assumption].
          * right. exists i. split; [now right | assumption].
      - right; left. exists (out0 ++ out)%list, p, i, r.
        rewrite E, emit_emit. split; [reflexivity|].
        split; [now right | assumption].
      - right; right. exists (out0 ++ out)%list, p, i, e.
        rewrite E, emit_emit. split; [reflexivity|].
        split; [now right | assumption]. }
    simpl scan_files. cbv beta iota delta [bind try_except].
    destruct (get_decimal_coord_from_exif_cases img w)
      as [[[[lat lon] alt] [E [Hc _]]] | [[e [E [He _]]]
         | [[r [E [Hr Hi]]] | [e [E [He Hi]]]]]]; rewrite E.
    + assert (Hl : has_location img = true)
        by (now rewrite has_location_of, Hc).
      cbv beta iota delta [ret resolve attr raise].
      destruct (datetime img) as [t|e] eqn:Hdt.
      * pose proof (Hrest (dict_set f {| latitude := lat; longitude := lon;
                                         altitude := alt;
                                         filepath := absolute (cwd w) f;
                                         timestamp := Some t |} d) []) as H.
        rewrite emit_nil in H. apply H.
        intros k Hk. apply dict_set_keys in Hk. tauto.
      * destruct (attribute_or_key e) eqn:He.
        -- apply (Hrest _ ["Photo " ++ name f
                           ++ " does not contain datetime information."]).
           intros k Hk. apply dict_set_keys in Hk. tauto.
        -- right; right. exists [], f, img, e. rewrite emit_nil.
           split; [reflexivity|]. split; [now left|].
           split; [assumption | now right].
    + rewrite He. cbv beta iota delta [ret]. apply Hrest.
      intros k Hk. now left.
    + cbv beta iota delta [attribute_or_key].
      right; left. exists [incorrect_reference r], f, img, r.
      split; [reflexivity|]. split; [now left | auto].
    + rewrite He. right; right. exists [], f, img, e. rewrite emit_nil.
      split; [reflexivity|]. split; [now left|].
      split; [assumption | now left].
Qed.

(** ** The scanner as a whole *)

Lemma scanned_incl (folder pattern : string) (w : World) :
  incl (scanned folder pattern w) (files w).
Proof. intros x Hx. apply filter_In in Hx. tauto. Qed.

Lemma well_formed_readable (l : list (string * file)) :
  forallb well_formed (List.map snd l) = true -> first_unreadable l = None.
Proof.
  induction l as [|[p [e|img]] l IH]; simpl; intros H.
  - reflexivity.
  - discriminate.
  - apply andb_true_iff in H. now apply IH.
Qed.

Lemma well_formed_In (l : list (string * file)) (p : string) (img : Image) :
  forallb well_formed (List.map snd l) = true ->
  In (p, Readable img) l -> well_formed (Readable img) = true.
Proof.
  intros H HI. rewrite forallb_forall in H.
  apply (H (Readable img)). change (Readable img) with (snd (p, Readable img)).
  now apply in_map.
Qed.


(** Every visited file opens, its tag reads raise nothing the handlers
    miss and its references are valid: the scan returns the records of
    the files that have a location, in enumeration order, and only
    prints. *)
Lemma scan_valid (folder pattern : string) (w : World) :
  NoDup (List.map fst (files w)) ->
  forallb well_formed (List.map snd (scanned folder pattern w)) = true ->
  exists out,
    read_spatial_data_from_folder folder pattern w
    = (Ok (records_of (cwd w) (scanned folder pattern w)), emit w out).
Proof.
  intros ND Hwf.
  destruct (read_all w (scanned folder pattern w) ND (scanned_incl _ _ _))
    as [images [E Hshape]].
  pose proof (well_formed_readable _ Hwf) as Hnone.
  rewrite Hnone in E. specialize (Hshape Hnone).
  set (pairs := combine (List.map fst (scanned folder pattern w)) images) in *.
  assert (Hfst : List.map fst pairs = List.map fst (scanned folder pattern w)).
  { clearbody pairs. rewrite Hshape, map_map. reflexivity. }
  destruct (scan_files_valid pairs [] w) as [out Hscan].
  - intros p img HI. apply (well_formed_In _ p img Hwf).
    rewrite Hshape. apply in_map_iff. exists (p, img). split; auto.
  - rewrite Hfst. now apply NoDup_map_fst_filter.
  - intros p _ [].
  - exists out.
    unfold read_spatial_data_from_folder.
    cbv beta iota delta [bind rglob].
    rewrite filter_map_fst. fold (scanned folder pattern w).
    rewrite E. fold pairs. rewrite Hscan.
    simpl. now rewrite <- Hshape.
Qed.

(** Every visited file opens: the scan returns a dictionary whose keys
    are visited files with all five location tags, or it raises as the
    loop does. *)
Lemma scan_outcomes (folder pattern : string) (w : World) :
  NoDup (List.map fst (files w)) ->
  first_unreadable (scanned folder pattern w) = None ->
  (exists d out,
      read_spatial_data_from_folder folder pattern w = (Ok d, emit w out)
      /\ forall k, In k (List.map fst d) ->
           exists img, In (k, Readable img) (scanned folder pattern w)
                       /\ has_location img = true)
  \/ (exists out p img r,
         read_spatial_data_from_folder folder pattern w
         = (Raise UnboundLocalError, emit w out)
         /\ In (p, Readable img) (scanned folder pattern w)
         /\ taken_ref r = false
         /\ (gps_latitude_ref img = Ok r \/ gps_longitude_ref img = Ok r))
  \/ (exists out p img e,
         read_spatial_data_from_folder folder pattern w
         = (Raise e, emit w out)
         /\ In (p, Readable img) (scanned folder pattern w)
         /\ attribute_or_key e = false /\ tag_raises img e).
Proof.
  intros ND Hnone.
  destruct (read_all w (scanned folder pattern w) ND (scanned_incl _ _ _))
    as [images [E Hshape]].
  rewrite Hnone in E. specialize (Hshape Hnone).
  assert (Hin : forall p img,
             In (p, img)
                (combine (List.map fst (scanned folder pattern w)) images) ->
             In (p, Readable img) (scanned folder pattern w)).
  { intros p img Hi. rewrite Hshape. apply in_map_iff. now exists (p, img). }
  unfold read_spatial_data_from_folder.
  cbv beta iota delta [bind rglob].
  rewrite filter_map_fst. fold (scanned folder pattern w). rewrite E.
  destruct (scan_files_outcomes
              (combine (List.map fst (scanned folder pattern w)) images) [] w)
    as [[d [out [H Hk]]] | [[out [p [img [r [H [Hi Hr]]]]]]
                           | [out [p [img [e [H [Hi He]]]]]]]].
  - left. exists d, out. split; [exact H|].
    intros k Hkd. destruct (Hk k Hkd) as [[] | [img [Hi Hl]]].
    exists img. split; [now apply Hin | assumption].
  - right; left. exists out, p, img, r. split; [exact H|].
    split; [now apply Hin | assumption].
  - right; right. exists out, p, img, e. split; [exact H|].
    split; [now apply Hin | assumption].
Qed.




(** ** The expected records *)



Lemma length_records_of (c : string) (l : list (string * file)) :
  List.length (records_of c l)
  = List.length (filter located (List.map snd l)).
Proof.
  induction l as [|[p [e|img]] l IH];
    cbn [records_of List.map snd filter located]; try assumption;
    [reflexivity|].
  rewrite has_location_of.
  destruct (location_of img) as [[[lat lon] alt]|]; simpl; now rewrite IH.
Qed.







(** C2, at a failing input.  The first file carries the latitude
    reference X, the second is a good photograph.  The normalizer prints
    its message; the unbound [mul] then raises [UnboundLocalError], which
    neither handler catches: the scan raises and returns no record, also
    none for the second file. *)
Theorem invalid_reference_aborts_scan :
  read_spatial_data_from_folder "images" "*.jpg" folder_with_bad_reference
  = (Raise UnboundLocalError,
     emit folder_with_bad_reference
       ["Incorrect hemisphere reference. Expecting one of 'N', 'S', 'E' or 'W', got X instead."])
  /\ lookup "images/b.jpg" (files folder_with_bad_reference)
     = Some (Readable (paris (Some may_day)))
  /\ has_location (paris (Some may_day)) = true
  /\ refs_valid (paris (Some may_day)) = true.
Proof. repeat split. Qed.

(** ** Sorting *)

Lemma insert_sorted_perm (r : PhotoRecord (option Z))
    (l : list (PhotoRecord (option Z))) :
  Permutation (insert_sorted r l) (r :: l).
Proof.
  induction l as [|x l IH]; simpl; [reflexivity|].
  destruct (ts_leb r x); [reflexivity|].
  rewrite IH. apply perm_swap.
Qed.

Lemma sort_by_timestamp_perm (l : list (PhotoRecord (option Z))) :
  Permutation (sort_by_timestamp l) l.
Proof.
  induction l as [|r l IH]; simpl; [reflexivity|].
  rewrite insert_sorted_perm. now constructor.
Qed.

Lemma notna_instant (r : PhotoRecord (option Z)) :
  notna r = true -> timestamp r = Some (instant r).
Proof. unfold notna, isna, instant. destruct (timestamp r); [reflexivity | discriminate]. Qed.

Lemma insert_sorted_sorted (r : PhotoRecord (option Z))
    (l : list (PhotoRecord (option Z))) :
  notna r = true -> Forall (fun x => notna x = true) l ->
  StronglySorted Z.le (List.map instant l) ->
  StronglySorted Z.le (List.map instant (insert_sorted r l)).
Proof.
  intros Hr. induction l as [|x l IH]; intros Hl Hs; simpl.
  - repeat constructor.
  - inversion Hl as [|? ? Hx Hl']; subst.
    simpl in Hs. inversion Hs as [|? ? Hs' Hall]; subst.
    assert (E : ts_leb r x = (instant r <=? instant x)%Z).
    { unfold ts_leb. now rewrite (notna_instant r Hr), (notna_instant x Hx). }
    rewrite E. destruct (Z.leb_spec (instant r) (instant x)) as [Hle | Hgt]; simpl.
    + constructor; [assumption|]. constructor; [assumption|].
      eapply Forall_impl; [|exact Hall]. intros a Ha. simpl in Ha. lia.
    + constructor; [now apply IH|].
      apply Forall_forall. intros a Ha.
      apply in_map_iff in Ha. destruct Ha as [y [<- Hy]].
      apply (Permutation_in _ (insert_sorted_perm r l)) in Hy.
      destruct Hy as [<- | Hy]; [lia|].
      rewrite Forall_forall in Hall. apply Hall. now apply in_map.
Qed.

Lemma sort_by_timestamp_sorted (l : list (PhotoRecord (option Z))) :
  Forall (fun x => notna x = true) l ->
  StronglySorted Z.le (List.map instant (sort_by_timestamp l)).
Proof.
  induction l as [|r l IH]; intros Hl; simpl; [constructor|].
  inversion Hl as [|? ? Hr Hl']; subst.
  apply insert_sorted_sorted; [assumption | | now apply IH].
  apply Forall_forall. intros x Hx.
  apply (Permutation_in _ (sort_by_timestamp_perm l)) in Hx.
  rewrite Forall_forall in Hl'. now apply Hl'.
Qed.

Lemma filter_notna_all (df : list (PhotoRecord (option Z))) :
  Forall (fun x => notna x = true) (filter notna df).
Proof. apply Forall_forall. intros x Hx. apply filter_In in Hx. tauto. Qed.

Lemma sorted_notna_all (df : list (PhotoRecord (option Z))) :
  Forall (fun x => notna x = true) (sort_by_timestamp (filter notna df)).
Proof.
  apply Forall_forall. intros x Hx.
  apply (Permutation_in _ (sort_by_timestamp_perm _)) in Hx.
  apply filter_In in Hx. tauto.
Qed.

Lemma timestamps_of_timed (l : list (PhotoRecord (option Z))) :
  Forall (fun x => notna x = true) l ->
  List.map timestamp l = List.map Some (List.map instant l).
Proof.
  induction 1 as [|x l Hx _ IH]; simpl; [reflexivity|].
  now rewrite (notna_instant x Hx), IH.
Qed.

Lemma timestamps_of_untimed (df : list (PhotoRecord (option Z))) :
  List.map timestamp (filter isna df)
  = repeat None (List.length (filter isna df)).
Proof.
  induction df as [|x df IH]; simpl; [reflexivity|].
  destruct (isna x) eqn:E; simpl; [|assumption].
  unfold isna in E. destruct (timestamp x); [discriminate|]. now rewrite IH.
Qed.

Lemma filter_isna_timed (l : list (PhotoRecord (option Z))) :
  Forall (fun x => notna x = true) l -> filter isna l = [].
Proof.
  induction 1 as [|x l Hx _ IH]; simpl; [reflexivity|].
  unfold notna in Hx. destruct (isna x); [discriminate | assumption].
Qed.

Lemma filter_idem {A} (f : A -> bool) (l : list A) :
  filter f (filter f l) = filter f l.
Proof.
  induction l as [|x l IH]; simpl; [reflexivity|].
  destruct (f x) eqn:E; simpl; [rewrite E|]; now rewrite ?IH.
Qed.

Lemma sort_values_perm (df : list (PhotoRecord (option Z))) :
  Permutation (sort_values df) df.
Proof.
  unfold sort_values. rewrite sort_by_timestamp_perm.
  induction df as [|x df IH]; simpl; [reflexivity|].
  unfold notna at 1. destruct (isna x); simpl.
  - rewrite <- IH at 3. symmetry. apply Permutation_middle.
  - now constructor.
Qed.

Lemma sort_values_nulls (df : list (PhotoRecord (option Z))) :
  filter isna (sort_values df) = filter isna df.
Proof.
  unfold sort_values.
  now rewrite filter_app, (filter_isna_timed _ (sorted_notna_all df)), filter_idem.
Qed.

Lemma sort_values_shape (df : list (PhotoRecord (option Z))) :
  exists (times : list Z) (nulls : nat),
    List.map timestamp (sort_values df)
    = (List.map Some times ++ repeat None nulls)%list
    /\ StronglySorted Z.le times.
Proof.
  exists (List.map instant (sort_by_timestamp (filter notna df))),
    (List.length (filter isna df)).
  split.
  - unfold sort_values. rewrite map_app.
    now rewrite (timestamps_of_timed _ (sorted_notna_all df)),
      timestamps_of_untimed.
  - apply sort_by_timestamp_sorted, filter_notna_all.
Qed.

(** ** The table builder *)

Lemma to_datetime_spec {L : Libraries} (column : list (option string)) :
  to_datetime column
  = if forallb parses column then Ok (List.map parse column)
    else Raise ValueError.
Proof.
  induction column as [|[s|] column IH]; simpl; [reflexivity| |].
  - destruct (null_text s); simpl.
    + rewrite IH. now destruct (forallb parses column).
    + destruct (strptime s) as [t|] eqn:E; simpl; [|reflexivity].
      rewrite IH. now destruct (forallb parses column).
  - rewrite IH. now destruct (forallb parses column).
Qed.

Lemma assign_timestamp_map {T U} (f : T -> U) (df : list (PhotoRecord T)) :
  assign_timestamp df (List.map f (List.map timestamp df))
  = List.map (fun r => set_timestamp r (f (timestamp r))) df.
Proof.
  unfold assign_timestamp. induction df as [|r df IH]; simpl; [reflexivity|].
  now rewrite IH.
Qed.

(** The rows of the frame with their raw timestamps read. *)
Lemma table_builder_spec {L : Libraries}
    (res : dict (PhotoRecord (option string))) :
  table_builder res
  = match res with
    | [] => Raise AttributeError
    | _ :: _ =>
        if forallb parses (List.map timestamp (DataFrame_T res))
        then Ok (sort_values
                   (List.map (fun r => set_timestamp r (parse (timestamp r)))
                      (DataFrame_T res)))
        else Raise ValueError
    end.
Proof.
  unfold table_builder. destruct res as [|kv res]; [reflexivity|].
  unfold column_timestamp, DataFrame_T at 1. cbn [List.map].
  rewrite to_datetime_spec.
  destruct (forallb parses _); [|reflexivity].
  now rewrite assign_timestamp_map.
Qed.

(** C6. The table built by lines 84 to 86 lists first the rows that have a
    time, in non-decreasing order of time, and then all the rows without
    one; it holds the rows of the frame, each once, with their raw
    timestamps read. *)
Theorem table_sorted_nulls_last {L : Libraries}
    (res : dict (PhotoRecord (option string)))
    (table : list (PhotoRecord (option Z))) :
  table_builder res = Ok table ->
  exists (times : list Z) (nulls : nat),
    List.map timestamp table = (List.map Some times ++ repeat None nulls)%list
    /\ StronglySorted Z.le times
    /\ Permutation table
         (List.map (fun r => set_timestamp r (parse (timestamp r)))
            (DataFrame_T res)).
Proof.
  rewrite table_builder_spec. destruct res as [|kv res]; [discriminate|].
  destruct (forallb parses _); [|discriminate].
  intros H. injection H as <-.
  destruct (sort_values_shape
              (List.map (fun r => set_timestamp r (parse (timestamp r)))
                 (DataFrame_T (kv :: res))))
    as [times [nulls [Hshape Hsorted]]].
  exists times, nulls. split; [exact Hshape|]. split; [exact Hsorted|].
  apply sort_values_perm.
Qed.

(** ** Scanner and builder together *)

Lemma records_of_parses {L : Libraries} (c : string)
    (l : list (string * file)) :
  forallb parses (List.map timestamp (DataFrame_T (records_of c l)))
  = forallb time_parses (List.map snd l).
Proof.
  unfold DataFrame_T.
  induction l as [|[p [e|img]] l IH];
    cbn [records_of List.map snd forallb time_parses]; try assumption;
    [reflexivity|].
  rewrite has_location_of.
  destruct (location_of img) as [[[lat lon] alt]|]; simpl; now rewrite IH.
Qed.

Lemma records_of_nulls {L : Libraries} (c : string)
    (l : list (string * file)) :
  forallb time_parses (List.map snd l) = true ->
  List.length
    (filter isna
       (List.map (fun r => set_timestamp r (parse (timestamp r)))
          (DataFrame_T (records_of c l))))
  = List.length (filter located_untimed (List.map snd l)).
Proof.
  unfold DataFrame_T.
  induction l as [|[p [e|img]] l IH];
    cbn [records_of List.map snd forallb time_parses filter located_untimed];
    [reflexivity | assumption |].
  rewrite has_location_of. intros H. apply andb_true_iff in H.
  destruct H as [Himg Hl].
  destruct (location_of img) as [[[lat lon] alt]|];
    cbn [is_some negb orb andb List.map snd filter] in *; [|now apply IH].
  unfold isna at 1, set_timestamp at 1. cbn [timestamp].
  destruct (raw_timestamp img) as [s|]; cbn [parse parses reads_null] in *.
  - destruct (null_text s); cbn [orb] in *; [simpl; now rewrite IH|].
    destruct (strptime s); [now apply IH | discriminate].
  - simpl. now rewrite IH.
Qed.

(** C3 (as amended). In a folder whose visited files all open, with tag
    reads that return or raise [AttributeError] or [KeyError] only and
    valid references, with k >= 1 located photographs of which j have a
    time tag that is absent, empty or one of the texts pandas reads as
    null ([NaT], [nan]): the scanner returns k records; when every other
    time tag matches the format, the builder returns a table of k rows of
    which exactly j have a null timestamp; when some other time tag does
    not match it, the builder raises [ValueError] and there is no
    table. *)
Theorem located_photos_give_rows {L : Libraries} (w : World) (k j : nat) :
  NoDup (List.map fst (files w)) ->
  forallb well_formed (List.map snd (scanned BASE_LOC "*.jpg" w)) = true ->
  k = List.length (filter located (List.map snd (scanned BASE_LOC "*.jpg" w))) ->
  j = List.length
        (filter located_untimed (List.map snd (scanned BASE_LOC "*.jpg" w))) ->
  (0 < k)%nat ->
  exists res out,
    read_spatial_data_from_folder BASE_LOC "*.jpg" w = (Ok res, emit w out)
    /\ List.length res = k
    /\ (forallb time_parses (List.map snd (scanned BASE_LOC "*.jpg" w)) = true ->
        exists table,
          table_builder res = Ok table
          /\ List.length table = k
          /\ List.length (filter isna table) = j)
    /\ (forallb time_parses (List.map snd (scanned BASE_LOC "*.jpg" w)) = false ->
        table_builder res = Raise ValueError).
Proof.
  intros ND Hwf Hk Hj Hpos.
  destruct (scan_valid BASE_LOC "*.jpg" w ND Hwf) as [out E].
  set (l := scanned BASE_LOC "*.jpg" w) in *.
  exists (records_of (cwd w) l), out.
  assert (Hlen : List.length (records_of (cwd w) l) = k)
    by (now rewrite length_records_of).
  split; [exact E|]. split; [exact Hlen|].
  rewrite table_builder_spec, records_of_parses.
  destruct (records_of (cwd w) l) as [|kv res] eqn:Er;
    [simpl in Hlen; lia|].
  rewrite <- Er in *. split; intros Hp; rewrite Hp; [|reflexivity].
  eexists. split; [reflexivity|]. split.
  - rewrite (Permutation_length (sort_values_perm _)).
    unfold DataFrame_T. now rewrite !length_map.
  - rewrite sort_values_nulls, records_of_nulls by assumption. now subst j.
Qed.

(** C3 at a folder with four located photographs: one with a time, one
    with an empty time tag, one with the text NaT, one without time
    tag. *)
Lemma located_photos_give_rows_witness :
  exists res out table,
    read_spatial_data_from_folder BASE_LOC "*.jpg" folder_with_null_times
    = (Ok res, emit folder_with_null_times out)
    /\ List.length res = 4%nat
    /\ @table_builder sample_libraries res = Ok table
    /\ List.length table = 4%nat
    /\ List.length (filter isna table) = 3%nat.
Proof.
  destruct (@located_photos_give_rows sample_libraries
              folder_with_null_times 4 3)
    as [res [out [E [Hlen [Hok _]]]]].
  - repeat constructor; simpl; intuition discriminate.
  - reflexivity.
  - reflexivity.
  - reflexivity.
  - lia.
  - destruct Hok as [table [Ht [Hk Hj]]]; [reflexivity|].
    exists res, out, table. auto.
Defined.

(** C3, as the claim states it, fails.  Two photographs with a position,
    one with a time tag that does not match the format: the scanner
    returns two records, and the builder raises instead of keeping the
    row with a null timestamp.  And with no photograph at all the builder
    raises as well, instead of returning no rows. *)
Lemma malformed_timestamp_aborts_builder :
  (exists res w',
      read_spatial_data_from_folder BASE_LOC "*.jpg" folder_with_malformed_time
      = (Ok res, w')
      /\ List.length res = 2%nat
      /\ @table_builder sample_libraries res = Raise ValueError)
  /\ fst (@generate_map sample_libraries folder_with_malformed_time)
     = Raise ValueError
  /\ (exists w',
         read_spatial_data_from_folder BASE_LOC "*.jpg" empty_folder
         = (Ok [], w'))
  /\ @table_builder sample_libraries [] = Raise AttributeError.
Proof.
  split; [eexists; eexists; split; [reflexivity | split; reflexivity]|].
  split; [reflexivity|].
  split; [eexists; reflexivity | reflexivity].
Qed.

(** ** Rendering *)

Lemma fold_left_snoc {A B} (g : A -> B) (l : list A) (m0 : list B) :
  fold_left (fun m row => (m ++ [g row])%list) l m0 = (m0 ++ List.map g l)%list.
Proof.
  revert m0. induction l as [|x l IH]; intros m0; simpl.
  - now rewrite app_nil_r.
  - now rewrite IH, <- app_assoc.
Qed.

Lemma render_spec {L : Libraries} (df : list (PhotoRecord (option Z))) :
  render df
  = (List.map marker (combine df (linspace 0 1 (List.length df)))
     ++ [FitBounds
           (number_add (Series_max (List.map latitude df)) 3,
            number_sub (Series_min (List.map longitude df)) 3)
           (number_sub (Series_min (List.map latitude df)) 3,
            number_add (Series_max (List.map longitude df)) 3)])%list.
Proof. unfold render. now rewrite fold_left_snoc. Qed.

(** ** Evenly spaced scalars *)

Lemma length_set_last (l : list Q) (v : Q) :
  List.length (set_last l v) = List.length l.
Proof.
  induction l as [|x [|y l] IH]; simpl in *; auto.
Qed.

Lemma nth_set_last_before (l : list Q) (v d : Q) (i : nat) :
  (S i < List.length l)%nat -> nth i (set_last l v) d = nth i l d.
Proof.
  revert i. induction l as [|x [|y l] IH]; intros i H; simpl in *; try lia.
  destruct i as [|i]; [reflexivity|]. apply IH. lia.
Qed.

Lemma nth_set_last_last (l : list Q) (v d : Q) :
  l <> [] -> nth (List.length l - 1) (set_last l v) d = v.
Proof.
  rewrite Nat.sub_1_r.
  induction l as [|x [|y l] IH]; intros H; [congruence | reflexivity |].
  change (nth (Nat.pred (List.length (y :: l))) (set_last (y :: l) v) d = v).
  apply IH. discriminate.
Qed.

Lemma nth_map_seq (f : nat -> Q) (n i : nat) (d : Q) :
  (i < n)%nat -> nth i (List.map f (seq 0 n)) d = f i.
Proof.
  intros H. rewrite (nth_indep _ d (f 0%nat)) by (now rewrite length_map, length_seq).
  now rewrite map_nth, seq_nth.
Qed.

Lemma length_linspace (start stop : Q) (n : nat) :
  List.length (linspace start stop n) = n.
Proof.
  unfold linspace.
  destruct (1 <? n)%nat; rewrite ?length_set_last;
    destruct (0 <? Z.of_nat n - 1)%Z; try destruct (Qeq_bool _ 0);
    now rewrite !length_map, length_seq.
Qed.

(** For more than one point, numpy's route: index times step, plus the
    start, and the end point written last. *)
Lemma linspace_unit (n : nat) :
  (1 < n)%nat ->
  linspace 0 1 n
  = set_last
      (List.map (fun i => inject_Z (Z.of_nat i)
                          * ((1 - 0) / inject_Z (Z.of_nat n - 1)) + 0)
         (seq 0 n))
      1.
Proof.
  intros H. unfold linspace.
  assert (Hdiv : (0 < Z.of_nat n - 1)%Z) by lia.
  apply Z.ltb_lt in Hdiv. rewrite Hdiv.
  apply Nat.ltb_lt in H. rewrite H.
  assert (Hstep : Qeq_bool ((1 - 0) / inject_Z (Z.of_nat n - 1)) 0 = false).
  { destruct (Qeq_bool _ 0) eqn:E; [|reflexivity]. exfalso.
    apply Qeq_bool_iff in E. apply Z.ltb_lt in Hdiv.
    assert (Hq : 0 < inject_Z (Z.of_nat n - 1))
      by (change 0 with (inject_Z 0); now rewrite <- Zlt_Qlt).
    assert (Hone : (1 - 0) / inject_Z (Z.of_nat n - 1)
                   * inject_Z (Z.of_nat n - 1) == 1)
      by (field; intros Hz; rewrite Hz in Hq; now apply Qlt_irrefl in Hq).
    rewrite E in Hone. lra. }
  rewrite Hstep. now rewrite !map_map.
Qed.

Lemma nth_linspace_unit (n i : nat) :
  (1 < n)%nat -> (i < n)%nat ->
  nth i (linspace 0 1 n) 0
  == inject_Z (Z.of_nat i) / inject_Z (Z.of_nat (n - 1)).
Proof.
  intros Hn Hi. rewrite (linspace_unit n Hn).
  assert (Hq : 0 < inject_Z (Z.of_nat (n - 1)))
    by (change 0 with (inject_Z 0); rewrite <- Zlt_Qlt; lia).
  assert (Hnz : ~ inject_Z (Z.of_nat (n - 1)) == 0)
    by (intros Hz; rewrite Hz in Hq; now apply Qlt_irrefl in Hq).
  replace (Z.of_nat n - 1)%Z with (Z.of_nat (n - 1)) by lia.
  set (column := List.map _ (seq 0 n)).
  assert (Hlen : List.length column = n)
    by (unfold column; now rewrite length_map, length_seq).
  destruct (Nat.eq_dec i (n - 1)) as [-> | Hne].
  - rewrite <- Hlen at 1. rewrite nth_set_last_last.
    + now field.
    + intros E. rewrite E in Hlen. simpl in Hlen. lia.
  - rewrite nth_set_last_before by lia.
    unfold column. rewrite nth_map_seq by assumption. now field.
Qed.

(** ** Extremes of a column *)

Lemma Qmax_cases (x y : Q) : Qmax x y = x \/ Qmax x y = y.
Proof. unfold Qmax, GenericMinMax.gmax. destruct (x ?= y); auto. Qed.

Lemma Qmin_cases (x y : Q) : Qmin x y = x \/ Qmin x y = y.
Proof. unfold Qmin, GenericMinMax.gmin. destruct (x ?= y); auto. Qed.

Lemma fold_left_Qmax_is_max (l : list Q) :
  forall x, is_max (fold_left Qmax l x) (x :: l).
Proof.
  induction l as [|y l IH]; intros x; simpl.
  - split; [now left|]. intros z [<- | []]. apply Qle_refl.
  - destruct (IH (Qmax x y)) as [Hin Hub]. split.
    + destruct Hin as [Hin | Hin]; [|now right; right].
      rewrite <- Hin. destruct (Qmax_cases x y) as [-> | ->]; simpl; auto.
    + intros z [<- | [<- | Hz]].
      * eapply Qle_trans; [apply Q.le_max_l | apply Hub; now left].
      * eapply Qle_trans; [apply Q.le_max_r | apply Hub; now left].
      * apply Hub. now right.
Qed.

Lemma fold_left_Qmin_is_min (l : list Q) :
  forall x, is_min (fold_left Qmin l x) (x :: l).
Proof.
  induction l as [|y l IH]; intros x; simpl.
  - split; [now left|]. intros z [<- | []]. apply Qle_refl.
  - destruct (IH (Qmin x y)) as [Hin Hlb]. split.
    + destruct Hin as [Hin | Hin]; [|now right; right].
      rewrite <- Hin. destruct (Qmin_cases x y) as [-> | ->]; simpl; auto.
    + intros z [<- | [<- | Hz]].
      * eapply Qle_trans; [apply Hlb; now left | apply Q.le_min_l].
      * eapply Qle_trans; [apply Hlb; now left | apply Q.le_min_r].
      * apply Hlb. now right.
Qed.

Lemma Series_max_is_max (column : list Q) :
  column <> [] -> exists x, Series_max column = Some x /\ is_max x column.
Proof.
  destruct column as [|x column]; [congruence|]. intros _.
  eexists. split; [reflexivity | apply fold_left_Qmax_is_max].
Qed.

Lemma Series_min_is_min (column : list Q) :
  column <> [] -> exists x, Series_min column = Some x /\ is_min x column.
Proof.
  destruct column as [|x column]; [congruence|]. intros _.
  eexists. split; [reflexivity | apply fold_left_Qmin_is_min].
Qed.

(** C7. For a table with at least one row the renderer adds one marker
    per row and then the viewport, whose corners are
    (max latitude + 3, min longitude - 3) and
    (min latitude - 3, max longitude + 3). *)
Theorem viewport_corners {L : Libraries} (df : list (PhotoRecord (option Z))) :
  df <> [] ->
  exists lat_max lat_min lon_max lon_min markers,
    is_max lat_max (List.map latitude df)
    /\ is_min lat_min (List.map latitude df)
    /\ is_max lon_max (List.map longitude df)
    /\ is_min lon_min (List.map longitude df)
    /\ markers = List.map marker (combine df (linspace 0 1 (List.length df)))
    /\ List.length markers = List.length df
    /\ render df
       = (markers
          ++ [FitBounds (Some (lat_max + 3), Some (lon_min - 3))
                        (Some (lat_min - 3), Some (lon_max + 3))])%list.
Proof.
  intros Hne.
  assert (Hlat : List.map latitude df <> [])
    by (destruct df; [congruence | discriminate]).
  assert (Hlon : List.map longitude df <> [])
    by (destruct df; [congruence | discriminate]).
  destruct (Series_max_is_max _ Hlat) as [lat_max [E1 H1]].
  destruct (Series_min_is_min _ Hlat) as [lat_min [E2 H2]].
  destruct (Series_max_is_max _ Hlon) as [lon_max [E3 H3]].
  destruct (Series_min_is_min _ Hlon) as [lon_min [E4 H4]].
  exists lat_max, lat_min, lon_max, lon_min.
  eexists. repeat (split; [eassumption|]). split; [reflexivity|].
  split.
  - rewrite length_map, length_combine, length_linspace. apply Nat.min_id.
  - rewrite render_spec, E1, E2, E3, E4. reflexivity.
Qed.

(** ** The colour column *)

Lemma linspace_step (n i : nat) :
  (S i < n)%nat ->
  nth (S i) (linspace 0 1 n) 0 - nth i (linspace 0 1 n) 0
  == 1 / inject_Z (Z.of_nat (n - 1))
  /\ 0 < 1 / inject_Z (Z.of_nat (n - 1)).
Proof.
  intros H.
  assert (Hq : 0 < inject_Z (Z.of_nat (n - 1)))
    by (change 0 with (inject_Z 0); rewrite <- Zlt_Qlt; lia).
  assert (Hnz : ~ inject_Z (Z.of_nat (n - 1)) == 0)
    by (intros Hz; rewrite Hz in Hq; now apply Qlt_irrefl in Hq).
  split.
  - rewrite !nth_linspace_unit by lia.
    rewrite Nat2Z.inj_succ, <- Z.add_1_r, inject_Z_plus. now field.
  - unfold Qdiv. rewrite Qmult_1_l. now apply Qinv_lt_0_compat.
Qed.

(** C5 (as amended). The colour column of a table of N rows is
    [linspace 0 1 N], and the marker of row i is coloured by its i-th
    entry.  For N > 1 that entry is i/(N-1): the column runs from 0 to 1
    in equal steps and is strictly increasing.  For N = 1 it is the single
    scalar 0.  For N = 0 the column is empty and no marker is drawn; the
    pipeline does not get that far, since on an empty record set the
    table builder raises [AttributeError]. *)
Theorem colour_scalars {L : Libraries} (df : list (PhotoRecord (option Z))) :
  let N := List.length df in
  let scalars := linspace 0 1 N in
  (exists viewport,
      render df = (List.map marker (combine df scalars) ++ [viewport])%list)
  /\ List.length scalars = N
  /\ ((1 < N)%nat ->
      forall i, (i < N)%nat ->
        nth i scalars 0 == inject_Z (Z.of_nat i) / inject_Z (Z.of_nat (N - 1)))
  /\ ((1 < N)%nat -> nth 0 scalars 0 == 0 /\ nth (N - 1) scalars 0 == 1)
  /\ (forall i, (S i < N)%nat -> nth i scalars 0 < nth (S i) scalars 0)
  /\ (forall i, (S i < N)%nat ->
        nth (S i) scalars 0 - nth i scalars 0
        == 1 / inject_Z (Z.of_nat (N - 1)))
  /\ (N = 1%nat -> scalars = [0])
  /\ (N = 0%nat -> scalars = [] /\ colours_and_coordinates (render df) = [])
  /\ table_builder [] = Raise AttributeError.
Proof.
  intros N scalars. subst scalars.
  split; [eexists; apply render_spec|].
  split; [apply length_linspace|].
  split; [intros HN i Hi; now apply nth_linspace_unit|].
  split.
  { intros HN.
    assert (Hq : 0 < inject_Z (Z.of_nat (N - 1)))
      by (change 0 with (inject_Z 0); rewrite <- Zlt_Qlt; lia).
    assert (Hnz : ~ inject_Z (Z.of_nat (N - 1)) == 0)
      by (intros Hz; rewrite Hz in Hq; now apply Qlt_irrefl in Hq).
    rewrite !nth_linspace_unit by lia. split; now field. }
  split.
  { intros i Hi. destruct (linspace_step N i Hi) as [Hstep Hpos].
    set (a := nth i (linspace 0 1 N) 0) in *.
    set (b := nth (S i) (linspace 0 1 N) 0) in *.
    set (t := 1 / inject_Z (Z.of_nat (N - 1))) in *.
    lra. }
  split; [intros i Hi; now apply linspace_step|].
  split; [intros ->; reflexivity|].
  split; [|reflexivity].
  intros HN. destruct df; [|discriminate]. split; reflexivity.
Qed.

(** C5 at a table of three rows: the scalars are 0, 1/2 and 1. *)
Lemma colour_scalars_witness :
  nth 0 (linspace 0 1 (List.length three_rows)) 0 == 0
  /\ nth 1 (linspace 0 1 (List.length three_rows)) 0 == 1 # 2
  /\ nth 2 (linspace 0 1 (List.length three_rows)) 0 == 1
  /\ nth 0 (linspace 0 1 (List.length three_rows)) 0
     < nth 1 (linspace 0 1 (List.length three_rows)) 0.
Proof.
  destruct (@colour_scalars sample_libraries three_rows)
    as [_ [_ [Hnth [Hends [Hinc _]]]]].
  split; [apply Hends; simpl; lia|].
  split; [rewrite (Hnth ltac:(simpl; lia) 1%nat ltac:(simpl; lia)); reflexivity|].
  split; [apply (Hends ltac:(simpl; lia))|].
  apply Hinc. simpl. lia.
Defined.

(** C5, as the claim states it, fails for N = 0: with no photograph the
    scan returns no record and the pipeline raises instead of producing an
    empty map. *)
Lemma empty_folder_raises :
  read_spatial_data_from_folder BASE_LOC "*.jpg" empty_folder
  = (Ok [], empty_folder)
  /\ @generate_map sample_libraries empty_folder
     = (Raise AttributeError, empty_folder)
  /\ map_html (snd (@generate_map sample_libraries empty_folder)) = None.
Proof. repeat split. Qed.

(** ** Two runs side by side *)

Lemma related_ret {A} (R : A -> A -> Prop) (a a' : A) :
  R a a' -> related R (ret a) (ret a').
Proof. intros H w w' Hw. simpl. auto. Qed.

Lemma related_raise {A} (R : A -> A -> Prop) (e : exn) :
  related R (raise e) (raise e).
Proof. intros w w' Hw. simpl. auto. Qed.

Lemma related_bind {A B} (R : A -> A -> Prop) (S : B -> B -> Prop)
    (m m' : M A) (k k' : A -> M B) :
  related R m m' ->
  (forall a a', R a a' -> related S (k a) (k' a')) ->
  related S (bind m k) (bind m' k').
Proof.
  intros Hm Hk w w' Hw. unfold bind.
  destruct (Hm w w' Hw) as [Hr [Hf Hf']].
  destruct (m w) as [[a | e] v], (m' w') as [[a' | e'] v']; simpl in *;
    try contradiction.
  - destruct (Hk a a' Hr v v') as [Hr2 [Hg Hg']]; [congruence|].
    repeat split; congruence.
  - auto.
Qed.

Lemma related_try_except {A} (R : A -> A -> Prop) (m m' : M A)
    (catches : exn -> bool) (h h' : exn -> M A) :
  related R m m' ->
  (forall e, related R (h e) (h' e)) ->
  related R (try_except m catches h) (try_except m' catches h').
Proof.
  intros Hm Hh w w' Hw. unfold try_except.
  destruct (Hm w w' Hw) as [Hr [Hf Hf']].
  destruct (m w) as [[a | e] v], (m' w') as [[a' | e'] v']; simpl in *;
    try contradiction.
  - auto.
  - subst e'. destruct (catches e); [|simpl; auto].
    destruct (Hh e v v') as [Hr2 [Hg Hg']]; [congruence|].
    repeat split; congruence.
Qed.

Lemma related_print (s s' : string) : related eq (print s) (print s').
Proof. intros w w' Hw. simpl. auto. Qed.

Lemma related_attr {A} (field : result A) : related eq (attr field) (attr field).
Proof. destruct field; [now apply related_ret | apply related_raise]. Qed.

Lemma related_resolve (p : string) :
  related (fun _ _ => True) (resolve p) (resolve p).
Proof. intros w w' Hw. simpl. auto. Qed.

Lemma related_rglob (folder pattern : string) :
  related eq (rglob folder pattern) (rglob folder pattern).
Proof. intros w w' Hw. simpl. now rewrite Hw. Qed.

Lemma related_read_exif_data (p : string) :
  related eq (read_exif_data p) (read_exif_data p).
Proof.
  intros w w' Hw. unfold read_exif_data. rewrite Hw.
  destruct (lookup p (files w')) as [[e | img]|]; simpl; auto.
Qed.

Lemma related_mapM {A B} (f : A -> M B) (l : list A) :
  (forall x, related eq (f x) (f x)) -> related eq (mapM f l) (mapM f l).
Proof.
  intros Hf. induction l as [|x l IH]; simpl.
  - now apply related_ret.
  - eapply related_bind; [apply Hf|]. intros y ? <-.
    eapply related_bind; [apply IH|]. intros ys ? <-.
    now apply related_ret.
Qed.

Lemma related_convert_coords_to_decimal (coords : Q * Q * Q) (ref : string) :
  related eq (convert_coords_to_decimal coords ref)
    (convert_coords_to_decimal coords ref).
Proof.
  destruct coords as [[c0 c1] c2]. unfold convert_coords_to_decimal.
  eapply related_bind with (R := eq).
  - destruct (in_list (upper ref) ["W"; "S"]); [now apply related_ret|].
    destruct (in_list (upper ref) ["E"; "N"]); [now apply related_ret|].
    eapply related_bind; [apply related_print|].
    intros _ _ _. now apply related_ret.
  - intros mul ? <-. destruct mul; [now apply related_ret | apply related_raise].
Qed.

Lemma related_get_decimal_coord_from_exif (img : Image) :
  related eq (get_decimal_coord_from_exif img) (get_decimal_coord_from_exif img).
Proof.
  unfold get_decimal_coord_from_exif. apply related_try_except.
  - repeat (eapply related_bind;
            [first [apply related_attr | apply related_convert_coords_to_decimal]
            | intros ? ? <-]).
    now apply related_ret.
  - intros e. eapply related_bind; [apply related_print|].
    intros _ _ _. apply related_raise.
Qed.

Lemma same_shots_dict_set {T} (k : string) (r r' : PhotoRecord T)
    (d d' : dict (PhotoRecord T)) :
  same_shots d d' -> same_shot r r' ->
  same_shots (dict_set k r d) (dict_set k r' d').
Proof.
  intros Hd Hr. induction Hd as [|[k1 v1] [k1' v1'] d d' [Hk Hv] Hd IH]; simpl.
  - constructor; [split; [reflexivity | assumption] | constructor].
  - simpl in Hk. subst k1'. destruct (String.eqb k k1).
    + constructor; [split; [reflexivity | assumption] | assumption].
    + constructor; [split; [reflexivity | assumption] | assumption].
Qed.

Lemma related_scan_files (pairs : list (string * Image)) :
  forall d d',
    same_shots d d' ->
    related same_shots (scan_files pairs d) (scan_files pairs d').
Proof.
  induction pairs as [|[f data] pairs IH]; intros d d' Hd; simpl.
  - now apply related_ret.
  - eapply related_bind with (R := eq).
    + apply related_try_except.
      * eapply related_bind; [apply related_get_decimal_coord_from_exif|].
        intros c ? <-. now apply related_ret.
      * intros _. now apply related_ret.
    + intros got ? <-. destruct got as [[[lat lon] alt]|]; [|now apply IH].
      eapply related_bind; [apply related_resolve|]. intros path path' _.
      eapply related_bind with (R := eq).
      * apply related_try_except.
        -- eapply related_bind; [apply related_attr|].
           intros t ? <-. now apply related_ret.
        -- intros _. eapply related_bind; [apply related_print|].
           intros _ _ _. now apply related_ret.
      * intros ts ? <-. apply IH. apply same_shots_dict_set; [assumption|].
        repeat split.
Qed.

Lemma related_read_spatial_data_from_folder (folder pattern : string) :
  related same_shots (read_spatial_data_from_folder folder pattern)
    (read_spatial_data_from_folder folder pattern).
Proof.
  unfold read_spatial_data_from_folder.
  eapply related_bind; [apply related_rglob|]. intros source_files ? <-.
  eapply related_bind;
    [apply related_mapM; intros x; apply related_read_exif_data|].
  intros exif ? <-. apply related_scan_files. constructor.
Qed.

(** ** The builder and the renderer on records of the same shots *)

Lemma Forall2_filter {A} (R : A -> A -> Prop) (f : A -> bool) (l l' : list A) :
  (forall a b, R a b -> f a = f b) ->
  Forall2 R l l' -> Forall2 R (filter f l) (filter f l').
Proof.
  intros Hf H. induction H as [|a b l l' Hab _ IH]; simpl; [constructor|].
  rewrite (Hf a b Hab). destruct (f b); [now constructor | assumption].
Qed.

Lemma same_shot_ts_leb (a a' b b' : PhotoRecord (option Z)) :
  same_shot a a' -> same_shot b b' -> ts_leb a b = ts_leb a' b'.
Proof.
  intros [_ [_ [_ Ha]]] [_ [_ [_ Hb]]]. unfold ts_leb. now rewrite Ha, Hb.
Qed.

Lemma same_shot_isna (a a' : PhotoRecord (option Z)) :
  same_shot a a' -> isna a = isna a'.
Proof. intros [_ [_ [_ Ha]]]. unfold isna. now rewrite Ha. Qed.

Lemma Forall2_insert_sorted (r r' : PhotoRecord (option Z))
    (l l' : list (PhotoRecord (option Z))) :
  same_shot r r' -> Forall2 same_shot l l' ->
  Forall2 same_shot (insert_sorted r l) (insert_sorted r' l').
Proof.
  intros Hr H. induction H as [|a b l l' Hab H IH]; simpl.
  - constructor; [assumption | constructor].
  - rewrite (same_shot_ts_leb r r' a b Hr Hab).
    destruct (ts_leb r' b).
    + constructor; [assumption|]. now constructor.
    + now constructor.
Qed.

Lemma Forall2_sort_values (df df' : list (PhotoRecord (option Z))) :
  Forall2 same_shot df df' -> Forall2 same_shot (sort_values df) (sort_values df').
Proof.
  intros H. unfold sort_values. apply Forall2_app.
  - assert (Hn : Forall2 same_shot (filter notna df) (filter notna df')).
    { apply Forall2_filter; [|assumption].
      intros a b Hab. unfold notna. now rewrite (same_shot_isna a b Hab). }
    induction Hn as [|a b l l' Hab _ IH]; simpl; [constructor|].
    now apply Forall2_insert_sorted.
  - apply Forall2_filter; [|assumption]. apply same_shot_isna.
Qed.

Lemma same_shots_rows {T} (d d' : dict (PhotoRecord T)) :
  same_shots d d' -> Forall2 same_shot (DataFrame_T d) (DataFrame_T d').
Proof.
  intros H. unfold DataFrame_T.
  induction H as [|kv kv' d d' [_ Hv] _ IH]; simpl; constructor; assumption.
Qed.

Lemma same_shot_timestamps {T} (df df' : list (PhotoRecord T)) :
  Forall2 same_shot df df' -> List.map timestamp df = List.map timestamp df'.
Proof.
  intros H. induction H as [|a b l l' [_ [_ [_ Hab]]] _ IH]; simpl;
    [reflexivity | now rewrite Hab, IH].
Qed.

Lemma same_shot_set_timestamp {T U} (f : T -> U) (df df' : list (PhotoRecord T)) :
  Forall2 same_shot df df' ->
  Forall2 same_shot
    (List.map (fun r => set_timestamp r (f (timestamp r))) df)
    (List.map (fun r => set_timestamp r (f (timestamp r))) df').
Proof.
  intros H. induction H as [|a b l l' Hab _ IH]; simpl;
    constructor; [|assumption].
  destruct Hab as [H1 [H2 [H3 H4]]]. repeat split; simpl; congruence.
Qed.

Lemma related_table_builder {L : Libraries}
    (res res' : dict (PhotoRecord (option string))) :
  same_shots res res' ->
  related_results (Forall2 same_shot) (table_builder res) (table_builder res').
Proof.
  intros H. rewrite !table_builder_spec.
  pose proof (same_shots_rows _ _ H) as Hrows.
  rewrite (same_shot_timestamps _ _ Hrows).
  destruct H as [|kv kv' d d' Hkv H]; [reflexivity|].
  destruct (forallb parses _); [|reflexivity].
  cbn [related_results]. apply Forall2_sort_values.
  exact (same_shot_set_timestamp parse _ _ Hrows).
Qed.

Lemma colours_of_render {L : Libraries} (df : list (PhotoRecord (option Z))) :
  colours_and_coordinates (render df)
  = List.map (fun rc => (latitude (fst rc), longitude (fst rc),
                         rgba_to_hex (plasma (snd rc)),
                         rgba_to_hex (plasma (snd rc))))
      (combine df (linspace 0 1 (List.length df))).
Proof.
  rewrite render_spec. unfold colours_and_coordinates.
  rewrite flat_map_app. simpl. rewrite app_nil_r.
  induction (combine df (linspace 0 1 (List.length df))) as [|[r c] l IH];
    simpl; [reflexivity | now rewrite IH].
Qed.

Lemma same_shot_colours {L : Libraries}
    (df df' : list (PhotoRecord (option Z))) :
  Forall2 same_shot df df' ->
  colours_and_coordinates (render df) = colours_and_coordinates (render df').
Proof.
  intros H. rewrite !colours_of_render.
  rewrite (Forall2_length H).
  generalize (linspace 0 1 (List.length df')) as scalars.
  induction H as [|a b l l' [H1 [H2 _]] _ IH]; intros scalars; [reflexivity|].
  destruct scalars as [|c scalars]; [reflexivity|].
  simpl. now rewrite H1, H2, IH.
Qed.

(** ** The pipeline *)

Lemma generate_map_unfold {L : Libraries} (w : World) :
  generate_map w
  = match read_spatial_data_from_folder BASE_LOC "*.jpg" w with
    | (Ok res, w1) =>
        match table_builder res with
        | Ok df =>
            (Ok (absolute (cwd w1) "map.html"),
             set_map_html w1
               (Some (absolute (cwd w1) "map.html", render df)))
        | Raise e => (Raise e, w1)
        end
    | (Raise e, w1) => (Raise e, w1)
    end.
Proof.
  unfold generate_map, bind.
  destruct (read_spatial_data_from_folder BASE_LOC "*.jpg" w) as [[res | e] w1];
    [|reflexivity].
  unfold lift. destruct (table_builder res); reflexivity.
Qed.

Lemma generate_map_related {L : Libraries} (w w' : World) :
  files w = files w' ->
  outcome (generate_map w) = outcome (generate_map w')
  /\ files (snd (generate_map w)) = files w.
Proof.
  intros Hw. rewrite !generate_map_unfold.
  destruct (related_read_spatial_data_from_folder BASE_LOC "*.jpg" w w' Hw)
    as [Hr [Hf Hf']].
  destruct (read_spatial_data_from_folder BASE_LOC "*.jpg" w) as [[res | e] w1],
    (read_spatial_data_from_folder BASE_LOC "*.jpg" w') as [[res' | e'] w1'];
    simpl in Hr, Hf, Hf'; try contradiction.
  - pose proof (related_table_builder res res' Hr) as Ht.
    destruct (table_builder res) as [df | e], (table_builder res') as [df' | e'];
      simpl in Ht; try contradiction.
    + split; [|exact Hf]. unfold outcome. simpl.
      now rewrite (same_shot_colours df df' Ht).
    + subst e'. split; [reflexivity | exact Hf].
  - subst e'. split; [reflexivity | exact Hf].
Qed.

(** C9. Two runs of the pipeline in worlds that hold the same files, in
    the same enumeration order, fail alike or write documents with the
    same marker coordinates and colours, whatever the working directory,
    the earlier output and the earlier document are; a run leaves the
    files as they were, so that a second run after it gives the markers
    of the first. *)
Theorem generate_map_deterministic {L : Libraries} (w w' : World) :
  files w = files w' ->
  outcome (generate_map w) = outcome (generate_map w')
  /\ files (snd (generate_map w)) = files w
  /\ outcome (generate_map (snd (generate_map w))) = outcome (generate_map w).
Proof.
  intros Hw. destruct (generate_map_related w w' Hw) as [Ho Hf].
  split; [exact Ho|]. split; [exact Hf|].
  now apply generate_map_related.
Qed.

(** C10. When the file dialog is cancelled, [upload_image] does nothing:
    no file moves, the pipeline does not run, no map is written, no
    dialog is shown, nothing is printed. *)
Theorem upload_image_cancelled {L : Libraries} (w : World) :
  upload_image "" w = (Ok tt, w).
Proof. reflexivity. Qed.

(** ** The theorems at concrete inputs *)

(** C6 at the table of the folder [holiday]. *)
Lemma table_sorted_nulls_last_witness :
  exists (times : list Z) (nulls : nat),
    List.map timestamp holiday_table
    = (List.map Some times ++ repeat None nulls)%list
    /\ StronglySorted Z.le times
    /\ Permutation holiday_table
         (List.map (fun r => set_timestamp r
                               (@parse sample_libraries (timestamp r)))
            (DataFrame_T holiday_records)).
Proof.
  apply (@table_sorted_nulls_last sample_libraries holiday_records holiday_table).
  reflexivity.
Defined.

(** C7 at a table of three rows. *)
Lemma viewport_corners_witness :
  exists lat_max lat_min lon_max lon_min markers,
    is_max lat_max (List.map latitude three_rows)
    /\ is_min lat_min (List.map latitude three_rows)
    /\ is_max lon_max (List.map longitude three_rows)
    /\ is_min lon_min (List.map longitude three_rows)
    /\ markers = List.map (@marker sample_libraries)
                   (combine three_rows (linspace 0 1 (List.length three_rows)))
    /\ List.length markers = List.length three_rows
    /\ @render sample_libraries three_rows
       = (markers
          ++ [FitBounds (Some (lat_max + 3), Some (lon_min - 3))
                        (Some (lat_min - 3), Some (lon_max + 3))])%list.
Proof.
  apply (@viewport_corners sample_libraries three_rows). discriminate.
Defined.

(** C9 at the folder [holiday], seen from two working directories. *)
Lemma generate_map_deterministic_witness :
  outcome (@generate_map sample_libraries holiday)
  = outcome (@generate_map sample_libraries holiday_elsewhere)
  /\ files (snd (@generate_map sample_libraries holiday)) = files holiday
  /\ outcome (@generate_map sample_libraries
                (snd (@generate_map sample_libraries holiday)))
     = outcome (@generate_map sample_libraries holiday).
Proof.
  apply (@generate_map_deterministic sample_libraries holiday holiday_elsewhere).
  reflexivity.
Defined.

(** * Further properties *)

(** ** What a computation leaves alone *)

Lemma only_prints_ret {A} (a : A) : only_prints (ret a).
Proof. intros w. exists []. simpl. now rewrite emit_nil. Qed.

Lemma only_prints_raise {A} (e : exn) : only_prints (@raise A e).
Proof. intros w. exists []. simpl. now rewrite emit_nil. Qed.

Lemma only_prints_lift {A} (r : result A) : only_prints (lift r).
Proof. intros w. exists []. simpl. now rewrite emit_nil. Qed.

Lemma only_prints_print (s : string) : only_prints (print s).
Proof. intros w. now exists [s]. Qed.

Lemma only_prints_bind {A B} (m : M A) (k : A -> M B) :
  only_prints m -> (forall a, only_prints (k a)) -> only_prints (bind m k).
Proof.
  intros Hm Hk w. unfold bind. destruct (Hm w) as [out E].
  destruct (m w) as [[a | e] v]; simpl in E; subst v.
  - destruct (Hk a (emit w out)) as [out' E']. exists (out ++ out')%list.
    now rewrite E', emit_emit.
  - now exists out.
Qed.

Lemma only_prints_try_except {A} (m : M A) (catches : exn -> bool)
    (h : exn -> M A) :
  only_prints m -> (forall e, only_prints (h e)) ->
  only_prints (try_except m catches h).
Proof.
  intros Hm Hh w. unfold try_except. destruct (Hm w) as [out E].
  destruct (m w) as [[a | e] v]; simpl in E; subst v.
  - now exists out.
  - destruct (catches e); [|now exists out].
    destruct (Hh e (emit w out)) as [out' E']. exists (out ++ out')%list.
    now rewrite E', emit_emit.
Qed.

Lemma only_prints_attr {A} (field : result A) : only_prints (attr field).
Proof. destruct field; [apply only_prints_ret | apply only_prints_raise]. Qed.

Lemma only_prints_resolve (p : string) : only_prints (resolve p).
Proof. intros w. exists []. simpl. now rewrite emit_nil. Qed.

Lemma only_prints_rglob (folder pattern : string) :
  only_prints (rglob folder pattern).
Proof. intros w. exists []. simpl. now rewrite emit_nil. Qed.

Lemma only_prints_read_exif_data (p : string) : only_prints (read_exif_data p).
Proof.
  intros w. exists []. unfold read_exif_data.
  destruct (lookup p (files w)) as [[e | img]|]; simpl; now rewrite emit_nil.
Qed.

Lemma only_prints_mapM {A B} (f : A -> M B) (l : list A) :
  (forall x, only_prints (f x)) -> only_prints (mapM f l).
Proof.
  intros Hf. induction l as [|x l IH]; simpl; [apply only_prints_ret|].
  apply only_prints_bind; [apply Hf|]. intros y.
  apply only_prints_bind; [apply IH|]. intros ys. apply only_prints_ret.
Qed.

Lemma only_prints_convert_coords_to_decimal (coords : Q * Q * Q) (ref : string) :
  only_prints (convert_coords_to_decimal coords ref).
Proof.
  destruct coords as [[c0 c1] c2]. unfold convert_coords_to_decimal.
  apply only_prints_bind.
  - destruct (in_list (upper ref) ["W"; "S"]); [apply only_prints_ret|].
    destruct (in_list (upper ref) ["E"; "N"]); [apply only_prints_ret|].
    apply only_prints_bind; [apply only_prints_print|].
    intros _. apply only_prints_ret.
  - intros [mul|]; [apply only_prints_ret | apply only_prints_raise].
Qed.

Lemma only_prints_get_decimal_coord_from_exif (img : Image) :
  only_prints (get_decimal_coord_from_exif img).
Proof.
  unfold get_decimal_coord_from_exif. apply only_prints_try_except.
  - repeat (apply only_prints_bind;
            [first [apply only_prints_attr
                   | apply only_prints_convert_coords_to_decimal]
            | intros ?]).
    apply only_prints_ret.
  - intros e. apply only_prints_bind; [apply only_prints_print|].
    intros _. apply only_prints_raise.
Qed.

Lemma only_prints_scan_files (pairs : list (string * Image)) :
  forall d, only_prints (scan_files pairs d).
Proof.
  induction pairs as [|[f data] pairs IH]; intros d; simpl.
  - apply only_prints_ret.
  - apply only_prints_bind.
    + apply only_prints_try_except.
      * apply only_prints_bind; [apply only_prints_get_decimal_coord_from_exif|].
        intros c. apply only_prints_ret.
      * intros _. apply only_prints_ret.
    + intros [[[lat lon] alt]|]; [|apply IH].
      apply only_prints_bind; [apply only_prints_resolve|]. intros path.
      apply only_prints_bind.
      * apply only_prints_try_except.
        -- apply only_prints_bind; [apply only_prints_attr|].
           intros t. apply only_prints_ret.
        -- intros _. apply only_prints_bind; [apply only_prints_print|].
           intros _. apply only_prints_ret.
      * intros ts. apply IH.
Qed.

Lemma only_prints_read_spatial_data_from_folder (folder pattern : string) :
  only_prints (read_spatial_data_from_folder folder pattern).
Proof.
  unfold read_spatial_data_from_folder.
  apply only_prints_bind; [apply only_prints_rglob|]. intros source_files.
  apply only_prints_bind;
    [apply only_prints_mapM; intros x; apply only_prints_read_exif_data|].
  intros exif. apply only_prints_scan_files.
Qed.

(** X1. Whatever the folder holds and whether the scan returns or raises,
    [read_spatial_data_from_folder] leaves the files, the working
    directory, the map document, the dialogs and the browser as they
    were; the printed lines are only extended. *)
Theorem scan_only_prints (folder pattern : string) (w : World) :
  let w' := snd (read_spatial_data_from_folder folder pattern w) in
  files w' = files w /\ cwd w' = cwd w /\ map_html w' = map_html w
  /\ dialogs w' = dialogs w /\ browser w' = browser w
  /\ exists out, stdout w' = (stdout w ++ out)%list.
Proof.
  destruct (only_prints_read_spatial_data_from_folder folder pattern w)
    as [out E].
  cbv zeta. rewrite E. repeat (split; [reflexivity|]). now exists out.
Qed.

(** ** What the pipeline writes *)

Lemma generate_map_cases {L : Libraries} (w : World) :
  exists out,
    (exists e, generate_map w = (Raise e, emit w out))
    \/ (exists m,
          generate_map w
          = (Ok (absolute (cwd w) "map.html"),
             set_map_html (emit w out)
               (Some (absolute (cwd w) "map.html", m)))).
Proof.
  destruct (only_prints_read_spatial_data_from_folder BASE_LOC "*.jpg" w)
    as [out E].
  exists out. rewrite generate_map_unfold.
  destruct (read_spatial_data_from_folder BASE_LOC "*.jpg" w) as [[res | e] w1];
    simpl in E; subst w1.
  - destruct (table_builder res) as [df | e].
    + right. exists (render df). reflexivity.
    + left. now exists e.
  - left. now exists e.
Qed.

(** X2. [generate_map] writes the document only when it succeeds: when it
    raises, the earlier document is left as it was; when it returns, it
    returns the path [map.html] under the working directory and the
    document is stored under that path.  Either way the files, the
    working directory, the dialogs and the browser are untouched and the
    printed lines are only extended. *)
Theorem generate_map_writes_on_success_only {L : Libraries} (w : World) :
  let w' := snd (generate_map w) in
  files w' = files w /\ cwd w' = cwd w
  /\ dialogs w' = dialogs w /\ browser w' = browser w
  /\ (exists out, stdout w' = (stdout w ++ out)%list)
  /\ match fst (generate_map w) with
     | Raise _ => map_html w' = map_html w
     | Ok path =>
         path = absolute (cwd w) "map.html"
         /\ exists m, map_html w' = Some (path, m)
     end.
Proof.
  cbv zeta. destruct (generate_map_cases w) as [out [[e E] | [m E]]];
    rewrite E; simpl.
  - repeat (split; [reflexivity|]). split; [now exists out | reflexivity].
  - repeat (split; [reflexivity|]). split; [now exists out|].
    split; [reflexivity | now exists m].
Qed.

(** X3. [open_map] opens the browser only when the pipeline succeeds, and
    then exactly once, on the address of the document just written; when
    the pipeline raises, the exception leaves [open_map], nothing is
    opened and, unlike in [upload_image], no dialog is shown. *)
Theorem open_map_opens_on_success_only {L : Libraries} (w : World) :
  let w' := snd (open_map w) in
  dialogs w' = dialogs w /\ files w' = files w
  /\ match fst (generate_map w) with
     | Raise e => fst (open_map w) = Raise e /\ browser w' = browser w
     | Ok path =>
         fst (open_map w) = Ok tt
         /\ browser w' = (browser w ++ [as_uri path])%list
         /\ map_html w' = map_html (snd (generate_map w))
     end.
Proof.
  cbv zeta. unfold open_map, bind, webbrowser_open.
  destruct (generate_map_cases w) as [out [[e E] | [m E]]];
    rewrite E; simpl; auto.
Qed.

(** ** Moving a file *)

Lemma lookup_remove_key_same {V} (k : string) (d : dict V) :
  lookup k (remove_key k d) = None.
Proof.
  induction d as [|[k' v] d IH]; simpl; [reflexivity|].
  destruct (String.eqb_spec k k') as [->|Hne]; [assumption|].
  simpl. destruct (String.eqb_spec k k'); [contradiction | assumption].
Qed.

Lemma lookup_remove_key_other {V} (k k' : string) (d : dict V) :
  k' <> k -> lookup k' (remove_key k d) = lookup k' d.
Proof.
  intros Hne. induction d as [|[k0 v] d IH]; simpl; [reflexivity|].
  destruct (String.eqb_spec k k0) as [->|Hk].
  - destruct (String.eqb_spec k' k0); [contradiction | assumption].
  - simpl. now rewrite IH.
Qed.

Lemma lookup_app_last {V} (k k' : string) (v : V) (d : dict V) :
  lookup k' (d ++ [(k, v)])%list
  = match lookup k' d with
    | Some x => Some x
    | None => if String.eqb k' k then Some v else None
    end.
Proof.
  induction d as [|[k0 v0] d IH]; simpl; [reflexivity|].
  now destruct (String.eqb k' k0).
Qed.

Lemma remove_key_keys {V} (k k' : string) (d : dict V) :
  In k' (List.map fst (remove_key k d)) <-> k' <> k /\ In k' (List.map fst d).
Proof.
  induction d as [|[k0 v] d IH]; simpl; [tauto|].
  destruct (String.eqb_spec k k0) as [->|Hk]; simpl; rewrite IH.
  - split; [tauto|]. intros [Hne [E | HI]]; [congruence | tauto].
  - split; [intros [E | [Hne HI]]; [subst; split; [congruence | tauto] | tauto]
           | tauto].
Qed.

Lemma remove_key_NoDup {V} (k : string) (d : dict V) :
  NoDup (List.map fst d) -> NoDup (List.map fst (remove_key k d)).
Proof.
  induction d as [|[k0 v] d IH]; simpl; intros ND; [constructor|].
  inversion ND as [|? ? Hnot ND']; subst.
  destruct (String.eqb k k0); simpl; [now apply IH|].
  constructor; [|now apply IH]. rewrite remove_key_keys. tauto.
Qed.

Lemma upload_image_unfold {L : Libraries} (selection : string) (w : World) :
  selection <> "" ->
  upload_image selection w
  = match lookup selection (files w) with
    | None => (Ok tt, set_dialogs w (dialogs w ++ [upload_error])%list)
    | Some f =>
        let dst := joinpath "images" (name selection) in
        match replace_error w selection dst with
        | Some _ => (Ok tt, set_dialogs w (dialogs w ++ [upload_error])%list)
        | None =>
            let w1 :=
              if String.eqb selection dst then w
              else set_files w (remove_key dst (remove_key selection (files w))
                                ++ [(dst, f)])%list in
            match generate_map w1 with
            | (Ok _, w2) => (Ok tt, w2)
            | (Raise _, w2) =>
                (Ok tt, set_dialogs w2 (dialogs w2 ++ [upload_error])%list)
            end
        end
    end.
Proof.
  intros Hsel. unfold upload_image.
  destruct (String.eqb_spec selection "") as [|_]; [contradiction|].
  cbv beta iota zeta delta [negb try_except bind Path_replace].
  destruct (lookup selection (files w)) as [f|]; [|reflexivity].
  destruct (replace_error w selection (joinpath "images" (name selection)));
    [reflexivity|].
  destruct (String.eqb selection (joinpath "images" (name selection)));
    match goal with
    | |- context [generate_map ?w1] =>
        destruct (generate_map w1) as [[path | e] w2]; reflexivity
    end.
Qed.

Lemma upload_image_moved {L : Libraries} (selection : string) (w : World)
    (f : file) :
  selection <> "" ->
  lookup selection (files w) = Some f ->
  selection <> joinpath "images" (name selection) ->
  replace_error w selection (joinpath "images" (name selection)) = None ->
  fst (upload_image selection w) = Ok tt
  /\ files (snd (upload_image selection w))
     = (remove_key (joinpath "images" (name selection))
          (remove_key selection (files w))
        ++ [(joinpath "images" (name selection), f)])%list.
Proof.
  intros Hsel Hf Hdst Hacc.
  rewrite (upload_image_unfold selection w Hsel), Hf.
  cbv zeta. rewrite Hacc.
  destruct (String.eqb_spec selection (joinpath "images" (name selection)))
    as [|_]; [contradiction|].
  match goal with
  | |- context [generate_map ?w1] =>
      destruct (generate_map_cases w1) as [out [[e E] | [m E]]]; rewrite E
  end; simpl; auto.
Qed.

Lemma upload_image_refused {L : Libraries} (selection : string) (w : World)
    (f : file) (e : exn) :
  selection <> "" ->
  lookup selection (files w) = Some f ->
  replace_error w selection (joinpath "images" (name selection)) = Some e ->
  upload_image selection w
  = (Ok tt, set_dialogs w (dialogs w ++ [upload_error])%list).
Proof.
  intros Hsel Hf Href.
  rewrite (upload_image_unfold selection w Hsel), Hf.
  cbv zeta. now rewrite Href.
Qed.

(** X4. [upload_image] never lets an exception out: whatever is selected
    and whatever the folder holds, it returns.  It shows at most one
    dialog, always the same upload error; and when the selected file does
    not exist, showing that dialog is all it does. *)
Theorem upload_image_never_raises {L : Libraries} (selection : string)
    (w : World) :
  let w' := snd (upload_image selection w) in
  fst (upload_image selection w) = Ok tt
  /\ (dialogs w' = dialogs w
      \/ dialogs w' = (dialogs w ++ [upload_error])%list)
  /\ (selection <> "" -> lookup selection (files w) = None ->
      w' = set_dialogs w (dialogs w ++ [upload_error])%list).
Proof.
  cbv zeta. destruct (String.eqb_spec selection "") as [->|Hsel].
  - split; [reflexivity|]. split; [now left | congruence].
  - rewrite (upload_image_unfold selection w Hsel).
    destruct (lookup selection (files w)) as [f|].
    + cbv zeta.
      destruct (replace_error w selection (joinpath "images" (name selection)));
        [simpl; split; [reflexivity|]; split; [now right | discriminate]|].
      assert (Hd : dialogs
                     (if String.eqb selection (joinpath "images" (name selection))
                      then w
                      else set_files w
                             (remove_key (joinpath "images" (name selection))
                                (remove_key selection (files w))
                              ++ [(joinpath "images" (name selection), f)])%list)
                   = dialogs w)
        by (destruct (String.eqb selection _); reflexivity).
      match goal with
      | |- context [generate_map ?w1] =>
          destruct (generate_map_cases w1) as [out [[e E] | [m E]]]; rewrite E
      end; simpl; rewrite Hd; (split; [reflexivity|]);
        (split; [auto | discriminate]).
    + simpl. split; [reflexivity|]. split; [now right | reflexivity].
Qed.

(** X5. The selected file exists and is not its destination
    [images/<name>], under this or another spelling.  When the operating
    system accepts the move,
    [upload_image] moves the file there: afterwards the file is found at
    the destination and no longer where it was, every other path holds
    what it held, and paths stay distinct; the move stands also when the
    pipeline then fails and the error dialog is shown.  When the operating
    system refuses the move (the folder [images] is missing, the file is
    on another file system), nothing moves and no map is made:
    [upload_image] shows the error dialog and that is all. *)
Theorem upload_image_moves_file {L : Libraries} (selection : string)
    (w : World) (f : file) :
  selection <> "" ->
  lookup selection (files w) = Some f ->
  absolute (cwd w) selection
  <> absolute (cwd w) (joinpath "images" (name selection)) ->
  let dst := joinpath "images" (name selection) in
  let w' := snd (upload_image selection w) in
  (replace_error w selection dst = None ->
   lookup dst (files w') = Some f
   /\ lookup selection (files w') = None
   /\ (forall p, p <> selection -> p <> dst ->
         lookup p (files w') = lookup p (files w))
   /\ (NoDup (List.map fst (files w)) -> NoDup (List.map fst (files w'))))
  /\ (forall e,
         replace_error w selection dst = Some e ->
         w' = set_dialogs w (dialogs w ++ [upload_error])%list).
Proof.
  intros Hsel Hf Habs. cbv zeta.
  assert (Hdst : selection <> joinpath "images" (name selection))
    by (intros E; apply Habs; f_equal; exact E).
  split.
  - intros Hacc.
    destruct (upload_image_moved selection w f Hsel Hf Hdst Hacc) as [_ E].
    rewrite E. set (dst := joinpath "images" (name selection)) in *.
    split; [|split; [|split]].
    + rewrite lookup_app_last, lookup_remove_key_same.
      now rewrite String.eqb_refl.
    + rewrite lookup_app_last, lookup_remove_key_other by assumption.
      rewrite lookup_remove_key_same.
      destruct (String.eqb_spec selection dst); [contradiction | reflexivity].
    + intros p Hp Hpd. rewrite lookup_app_last.
      rewrite !lookup_remove_key_other by assumption.
      destruct (lookup p (files w)); [reflexivity|].
      destruct (String.eqb_spec p dst); [contradiction | reflexivity].
    + intros ND. rewrite map_app. simpl.
      apply NoDup_app.
      * now apply remove_key_NoDup, remove_key_NoDup.
      * repeat constructor. intros [].
      * intros k Hk [<- | []]. apply remove_key_keys in Hk. tauto.
  - intros e Href.
    now rewrite (upload_image_refused selection w f e Hsel Hf Href).
Qed.

(** ** Names of paths *)

Lemma no_slash_app (a b : string) :
  no_slash (a ++ b) = no_slash a && no_slash b.
Proof.
  induction a as [|c a IH]; simpl; [reflexivity|].
  now rewrite IH, andb_assoc.
Qed.

Lemma name_from_no_slash (p : string) :
  forall current, no_slash current = true ->
                  no_slash (name_from current p) = true.
Proof.
  induction p as [|c p IH]; intros current H; simpl; [assumption|].
  destruct (Ascii.eqb c "/") eqn:E; apply IH; [reflexivity|].
  rewrite no_slash_app, H. simpl. now rewrite E.
Qed.

Lemma name_from_plain (p : string) :
  forall current, no_slash p = true -> name_from current p = current ++ p.
Proof.
  induction p as [|c p IH]; intros current H; simpl in *.
  - induction current as [|c current IHc]; simpl; [reflexivity | now rewrite <- IHc].
  - apply andb_true_iff in H. destruct H as [Hc Hp].
    destruct (Ascii.eqb c "/"); [discriminate|].
    rewrite IH by assumption.
    induction current as [|c' current IHc]; simpl; [reflexivity | now rewrite IHc].
Qed.

(** The name of a path has no slash, and is its own name. *)
Lemma name_name (p : string) : name (name p) = name p.
Proof.
  unfold name at 1. rewrite name_from_plain; [reflexivity|].
  now apply name_from_no_slash.
Qed.

Lemma name_in_images (p : string) :
  name (joinpath "images" (name p)) = name p.
Proof. change (name (name p) = name p). apply name_name. Qed.

Lemma prefix_app (s t : string) : prefix s (s ++ t) = true.
Proof.
  induction s as [|c s IH]; simpl; [now destruct t|].
  destruct (ascii_dec c c); [assumption | contradiction].
Qed.

Lemma visits_destination (selection : string) :
  visits BASE_LOC "*.jpg" (joinpath "images" (name selection))
  = endswith (name selection) ".jpg".
Proof.
  unfold visits, BASE_LOC, joinpath.
  change (prefix ("images" ++ "/") ("images" ++ "/" ++ name selection))
    with (prefix ("images" ++ "/") (("images" ++ "/") ++ name selection)).
  rewrite prefix_app.
  change ("images" ++ "/" ++ name selection)
    with (joinpath "images" (name selection)).
  rewrite name_in_images. reflexivity.
Qed.

(** X6. After [upload_image] has moved a file (the operating system
    having accepted the move), the next scan of the folder visits it
    exactly when its name ends in [.jpg]: the file dialog's filter is not
    checked again, a file of another name is moved into the folder all the
    same and then ignored by the scan. *)
Theorem uploaded_file_is_scanned_iff_jpg {L : Libraries} (selection : string)
    (w : World) (f : file) :
  selection <> "" ->
  lookup selection (files w) = Some f ->
  selection <> joinpath "images" (name selection) ->
  replace_error w selection (joinpath "images" (name selection)) = None ->
  let dst := joinpath "images" (name selection) in
  let w' := snd (upload_image selection w) in
  In (dst, f) (files w')
  /\ (In (dst, f) (scanned BASE_LOC "*.jpg" w')
      <-> endswith (name selection) ".jpg" = true).
Proof.
  intros Hsel Hf Hdst Hacc. cbv zeta.
  destruct (upload_image_moved selection w f Hsel Hf Hdst Hacc) as [_ E].
  assert (Hin : In (joinpath "images" (name selection), f)
                  (files (snd (upload_image selection w))))
    by (rewrite E; apply in_or_app; right; now left).
  split; [exact Hin|].
  unfold scanned. rewrite filter_In. cbn [fst].
  rewrite visits_destination. tauto.
Qed.

(** ** Colour strings *)

Lemma byte_of_hex_format (b : Byte.byte) :
  byte_of_hex (hex_digit (Byte.to_N b / 16)) (hex_digit (Byte.to_N b mod 16))
  = Some b.
Proof. destruct b; vm_compute; reflexivity. Qed.

(** X7. [rgba_to_hex] writes seven characters, a hash sign and two
    upper-case hexadecimal digits per channel, from which red, green and
    blue are read back exactly; the alpha channel is dropped.  Two colours
    get the same string only if they agree on red, green and blue. *)
Theorem rgba_to_hex_round_trip (r g b a : Byte.byte) :
  hex_to_rgb (rgba_to_hex (r, g, b, a)) = Some (r, g, b)
  /\ String.length (rgba_to_hex (r, g, b, a)) = 7%nat
  /\ forall r' g' b' a',
      rgba_to_hex (r, g, b, a) = rgba_to_hex (r', g', b', a') ->
      (r, g, b) = (r', g', b').
Proof.
  assert (Hrt : forall r g b a,
             hex_to_rgb (rgba_to_hex (r, g, b, a)) = Some (r, g, b)).
  { intros r0 g0 b0 a0. unfold rgba_to_hex, format_02X.
    cbn [append hex_to_rgb].
    now rewrite !byte_of_hex_format. }
  split; [apply Hrt|]. split; [reflexivity|].
  intros r' g' b' a' E.
  pose proof (Hrt r g b a) as H1. rewrite E, Hrt in H1. congruence.
Qed.

(** ** Outcomes of the normalizer and of the extractor *)

(** X8. [convert_coords_to_decimal] returns a number exactly when the
    reference is one of N, S, E, W in either case or the long s (U+017F),
    whose upper case is S; it then prints nothing, and the number is the
    magnitude, negated for S, W and the long s.  For every other
    reference it prints the line naming the reference and raises
    [UnboundLocalError]: no number is returned. *)
Theorem convert_coords_to_decimal_returns_iff_valid (coords : Q * Q * Q)
    (ref : string) (w : World) :
  (taken_ref ref = true
   /\ convert_coords_to_decimal coords ref w = (Ok (decimal coords ref), w))
  \/ (taken_ref ref = false
      /\ convert_coords_to_decimal coords ref w
         = (Raise UnboundLocalError, emit w [incorrect_reference ref])).
Proof.
  destruct (taken_ref ref) eqn:E.
  - left. split; [reflexivity|]. now apply convert_coords_to_decimal_taken.
  - right. split; [reflexivity|]. now apply convert_coords_to_decimal_invalid.
Qed.

(** X9. [get_decimal_coord_from_exif] ends in one of three ways.  It
    returns the position, printing nothing, exactly when all five tags can
    be read and the normalizer takes both references.  It raises
    [AttributeError] or [KeyError] only after printing its one line, and
    only because reading a location tag raised it (a missing tag, a file
    without metadata).  Any other exception leaves it without that line:
    [UnboundLocalError] with the normalizer's line, at a reference the
    normalizer does not take, or the exception a tag read raised (damaged
    metadata), with nothing printed. *)
Theorem get_decimal_coord_from_exif_outcomes (img : Image) (w : World) :
  match get_decimal_coord_from_exif img w with
  | (Ok c, w') =>
      location_of img = Some c /\ has_location img = true
      /\ refs_taken img = true /\ w' = w
  | (Raise e, w') =>
      if attribute_or_key e
      then has_location img = false /\ location_tag_raises img e
           /\ w' = emit w [no_spatial_data]
      else (e = UnboundLocalError
            /\ exists r,
                taken_ref r = false
                /\ (gps_latitude_ref img = Ok r \/ gps_longitude_ref img = Ok r)
                /\ w' = emit w [incorrect_reference r])
           \/ (location_tag_raises img e /\ w' = w)
  end.
Proof.
  destruct (get_decimal_coord_from_exif_cases img w)
    as [[c [E [Hc Hr]]] | [[e [E [He [Hl Hi]]]]
       | [[r [E [Hr Hi]]] | [e [E [He Hi]]]]]]; rewrite E.
  - rewrite has_location_of, Hc. auto.
  - rewrite He. auto.
  - cbn [attribute_or_key]. left. split; [reflexivity|]. now exists r.
  - rewrite He. right. auto.
Qed.

(** ** How a scan can end *)

(** X10. When every visited file can be opened, a scan ends in one of
    three ways, and it only prints.  It returns a dictionary, whose keys
    are visited files with all five location tags.  It raises
    [UnboundLocalError] because some visited image carries a hemisphere
    reference the normalizer does not take.  Or it raises an exception
    other than [AttributeError] and [KeyError] that reading a tag of some
    visited image raised (damaged metadata). *)
Theorem scan_returns_or_unbound (folder pattern : string) (w : World) :
  NoDup (List.map fst (files w)) ->
  first_unreadable (scanned folder pattern w) = None ->
  (exists d out,
      read_spatial_data_from_folder folder pattern w = (Ok d, emit w out)
      /\ forall k, In k (List.map fst d) ->
           exists img, In (k, Readable img) (scanned folder pattern w)
                       /\ has_location img = true)
  \/ (exists out p img r,
         read_spatial_data_from_folder folder pattern w
         = (Raise UnboundLocalError, emit w out)
         /\ In (p, Readable img) (scanned folder pattern w)
         /\ taken_ref r = false
         /\ (gps_latitude_ref img = Ok r \/ gps_longitude_ref img = Ok r))
  \/ (exists out p img e,
         read_spatial_data_from_folder folder pattern w
         = (Raise e, emit w out)
         /\ In (p, Readable img) (scanned folder pattern w)
         /\ attribute_or_key e = false /\ tag_raises img e).
Proof. apply scan_outcomes. Qed.

(** X10 at a folder with a photograph whose metadata is damaged: the
    scan raises the library's exception. *)
Lemma scan_returns_or_unbound_witness :
  read_spatial_data_from_folder "images" "*.jpg" folder_with_damaged
  = (Raise UnpackError, folder_with_damaged)
  /\ ((exists d out,
          read_spatial_data_from_folder "images" "*.jpg" folder_with_damaged
          = (Ok d, emit folder_with_damaged out)
          /\ forall k, In k (List.map fst d) ->
               exists img,
                 In (k, Readable img)
                    (scanned "images" "*.jpg" folder_with_damaged)
                 /\ has_location img = true)
      \/ (exists out p img r,
             read_spatial_data_from_folder "images" "*.jpg" folder_with_damaged
             = (Raise UnboundLocalError, emit folder_with_damaged out)
             /\ In (p, Readable img)
                   (scanned "images" "*.jpg" folder_with_damaged)
             /\ taken_ref r = false
             /\ (gps_latitude_ref img = Ok r \/ gps_longitude_ref img = Ok r))
      \/ (exists out p img e,
             read_spatial_data_from_folder "images" "*.jpg" folder_with_damaged
             = (Raise e, emit folder_with_damaged out)
             /\ In (p, Readable img)
                   (scanned "images" "*.jpg" folder_with_damaged)
             /\ attribute_or_key e = false /\ tag_raises img e)).
Proof.
  split; [reflexivity|].
  apply (scan_returns_or_unbound "images" "*.jpg" folder_with_damaged).
  - repeat constructor; simpl; intuition discriminate.
  - reflexivity.
Defined.

(** ** The order and the paths of the records *)

Lemma records_of_order (c : string) (l : list (string * file)) :
  List.map fst (records_of c l)
  = List.map fst (filter (fun pf => located (snd pf)) l).
Proof.
  induction l as [|[p [e|img]] l IH];
    cbn [records_of filter located snd]; try assumption; [reflexivity|].
  rewrite has_location_of.
  destruct (location_of img) as [[[lat lon] alt]|]; simpl; now rewrite ?IH.
Qed.

Lemma records_of_filepath (c : string) (l : list (string * file)) (p : string)
    (r : PhotoRecord (option string)) :
  In (p, r) (records_of c l) -> filepath r = absolute c p.
Proof.
  induction l as [|[p0 [e|img]] l IH]; simpl; intros H;
    [contradiction | now apply IH |].
  destruct (location_of img) as [[[lat lon] alt]|]; [|now apply IH].
  destruct H as [H | H]; [|now apply IH]. now inversion H.
Qed.

(** X11. When every visited file opens, its tag reads return or raise
    [AttributeError] or [KeyError] only, and its references are valid,
    the scan returns one record for each file that has all its location
    tags, keyed by the file's path, in the order of enumeration and
    without a repeated key; the [filepath] of each record is its key
    resolved against the working directory. *)
Theorem scan_records_in_enumeration_order (folder pattern : string)
    (w : World) :
  NoDup (List.map fst (files w)) ->
  forallb well_formed (List.map snd (scanned folder pattern w)) = true ->
  exists d out,
    read_spatial_data_from_folder folder pattern w = (Ok d, emit w out)
    /\ List.map fst d
       = List.map fst
           (filter (fun pf => located (snd pf)) (scanned folder pattern w))
    /\ NoDup (List.map fst d)
    /\ forall p r, In (p, r) d -> filepath r = absolute (cwd w) p.
Proof.
  intros ND Hwf. destruct (scan_valid folder pattern w ND Hwf) as [out E].
  exists (records_of (cwd w) (scanned folder pattern w)), out.
  split; [exact E|]. split; [apply records_of_order|]. split.
  - rewrite records_of_order.
    apply NoDup_map_fst_filter. unfold scanned. now apply NoDup_map_fst_filter.
  - intros p r. apply records_of_filepath.
Qed.

Lemma scan_records_in_enumeration_order_witness :
  exists d out,
    read_spatial_data_from_folder "images" "*.jpg" holiday
    = (Ok d, emit holiday out)
    /\ List.map fst d = ["images/a.jpg"; "images/d.jpg"; "images/sub/b.jpg"]
    /\ NoDup (List.map fst d)
    /\ forall p r, In (p, r) d -> filepath r = absolute (cwd holiday) p.
Proof.
  apply (scan_records_in_enumeration_order "images" "*.jpg" holiday).
  - repeat constructor; simpl; intuition discriminate.
  - reflexivity.
Defined.

(** ** When the pipeline succeeds *)

Lemma length_render {L : Libraries} (df : list (PhotoRecord (option Z))) :
  List.length (render df) = S (List.length df)
  /\ List.length (colours_and_coordinates (render df)) = List.length df.
Proof.
  rewrite colours_of_render, render_spec. rewrite length_app, !length_map.
  rewrite length_combine, length_linspace, Nat.min_id. simpl. lia.
Qed.

Lemma generate_map_located {L : Libraries} (w : World) (k : nat) :
  NoDup (List.map fst (files w)) ->
  forallb well_formed (List.map snd (scanned BASE_LOC "*.jpg" w)) = true ->
  forallb time_parses (List.map snd (scanned BASE_LOC "*.jpg" w)) = true ->
  k = List.length (filter located (List.map snd (scanned BASE_LOC "*.jpg" w))) ->
  exists out,
    (k = 0%nat -> generate_map w = (Raise AttributeError, emit w out))
    /\ ((0 < k)%nat ->
        exists m,
          generate_map w
          = (Ok (absolute (cwd w) "map.html"),
             set_map_html (emit w out)
               (Some (absolute (cwd w) "map.html", m)))
          /\ List.length (colours_and_coordinates m) = k
          /\ List.length m = S k).
Proof.
  intros ND Hwf Hp Hk.
  destruct (scan_valid BASE_LOC "*.jpg" w ND Hwf) as [out E].
  exists out. rewrite generate_map_unfold, E.
  rewrite table_builder_spec, records_of_parses, Hp.
  pose proof (length_records_of (cwd w) (scanned BASE_LOC "*.jpg" w)) as Hlen.
  rewrite <- Hk in Hlen.
  destruct (records_of (cwd w) (scanned BASE_LOC "*.jpg" w)) as [|kv res] eqn:Er.
  - split; [reflexivity|]. simpl in Hlen. lia.
  - split; [simpl in Hlen; lia|]. intros _. rewrite <- Er in *.
    eexists. split; [reflexivity|].
    destruct (length_render
                (sort_values
                   (List.map (fun r => set_timestamp r (parse (timestamp r)))
                      (DataFrame_T (records_of (cwd w)
                                      (scanned BASE_LOC "*.jpg" w))))))
      as [H1 H2].
    rewrite H1, H2, (Permutation_length (sort_values_perm _)).
    unfold DataFrame_T. rewrite !length_map, Hlen. auto.
Qed.

(** X12. In a folder whose visited files all open, with tag reads that
    return or raise [AttributeError] or [KeyError] only, valid references
    and time tags that are absent, null or match the format, the pipeline
    succeeds exactly when some photograph has a location.  With k >= 1
    located photographs it returns the path of [map.html] and stores a
    document of k markers and one viewport, having only printed besides;
    with none it raises [AttributeError] and stores nothing. *)
Theorem generate_map_succeeds_iff_located {L : Libraries} (w : World)
    (k : nat) :
  NoDup (List.map fst (files w)) ->
  forallb well_formed (List.map snd (scanned BASE_LOC "*.jpg" w)) = true ->
  forallb time_parses (List.map snd (scanned BASE_LOC "*.jpg" w)) = true ->
  k = List.length (filter located (List.map snd (scanned BASE_LOC "*.jpg" w))) ->
  (k = 0%nat ->
   fst (generate_map w) = Raise AttributeError
   /\ map_html (snd (generate_map w)) = map_html w)
  /\ ((0 < k)%nat ->
      fst (generate_map w) = Ok (absolute (cwd w) "map.html")
      /\ exists m,
          map_html (snd (generate_map w))
          = Some (absolute (cwd w) "map.html", m)
          /\ List.length (colours_and_coordinates m) = k
          /\ List.length m = S k).
Proof.
  intros ND Hwf Hp Hk.
  destruct (generate_map_located w k ND Hwf Hp Hk) as [out [H0 Hpos]].
  split.
  - intros Hz. rewrite (H0 Hz). split; reflexivity.
  - intros Hk'. destruct (Hpos Hk') as [m [E [Hc Hm]]]. rewrite E.
    split; [reflexivity|]. exists m. auto.
Qed.

Lemma generate_map_succeeds_iff_located_witness :
  fst (@generate_map sample_libraries holiday)
  = Ok (absolute (cwd holiday) "map.html")
  /\ exists m,
      map_html (snd (@generate_map sample_libraries holiday))
      = Some (absolute (cwd holiday) "map.html", m)
      /\ List.length (colours_and_coordinates m) = 3%nat
      /\ List.length m = 4%nat.
Proof.
  destruct (@generate_map_succeeds_iff_located sample_libraries holiday 3)
    as [_ H].
  - repeat constructor; simpl; intuition discriminate.
  - reflexivity.
  - reflexivity.
  - reflexivity.
  - apply H. lia.
Defined.

(** ** The viewport and the markers *)

(** X13. For a table with at least one row, the box between the two
    corners handed to [fit_bounds] holds every marker with three degrees to
    spare on each side.  The corner called south-west carries the larger
    latitude: it lies at least six degrees north of the corner called
    north-east, and at least six degrees west of it. *)
Theorem viewport_spans_markers {L : Libraries}
    (df : list (PhotoRecord (option Z))) :
  df <> [] ->
  exists sw_lat sw_lon ne_lat ne_lon markers,
    render df
    = (markers ++ [FitBounds (Some sw_lat, Some sw_lon)
                             (Some ne_lat, Some ne_lon)])%list
    /\ ne_lat + 6 <= sw_lat
    /\ sw_lon + 6 <= ne_lon
    /\ forall r, In r df ->
         ne_lat + 3 <= latitude r /\ latitude r <= sw_lat - 3
         /\ sw_lon + 3 <= longitude r /\ longitude r <= ne_lon - 3.
Proof.
  intros Hne.
  assert (Hlat : List.map latitude df <> [])
    by (destruct df; [congruence | discriminate]).
  assert (Hlon : List.map longitude df <> [])
    by (destruct df; [congruence | discriminate]).
  destruct (Series_max_is_max _ Hlat) as [lat_max [E1 [I1 U1]]].
  destruct (Series_min_is_min _ Hlat) as [lat_min [E2 [I2 U2]]].
  destruct (Series_max_is_max _ Hlon) as [lon_max [E3 [I3 U3]]].
  destruct (Series_min_is_min _ Hlon) as [lon_min [E4 [I4 U4]]].
  exists (lat_max + 3), (lon_min - 3), (lat_min - 3), (lon_max + 3).
  eexists. split; [rewrite render_spec, E1, E2, E3, E4; reflexivity|].
  pose proof (U1 _ I2) as Hlat_order. pose proof (U3 _ I4) as Hlon_order.
  split; [lra|]. split; [lra|].
  intros r Hr.
  pose proof (U1 _ (in_map latitude _ _ Hr)).
  pose proof (U2 _ (in_map latitude _ _ Hr)).
  pose proof (U3 _ (in_map longitude _ _ Hr)).
  pose proof (U4 _ (in_map longitude _ _ Hr)).
  repeat split; lra.
Qed.

Lemma viewport_spans_markers_witness :
  exists sw_lat sw_lon ne_lat ne_lon markers,
    @render sample_libraries three_rows
    = (markers ++ [FitBounds (Some sw_lat, Some sw_lon)
                             (Some ne_lat, Some ne_lon)])%list
    /\ ne_lat + 6 <= sw_lat
    /\ sw_lon + 6 <= ne_lon
    /\ forall r, In r three_rows ->
         ne_lat + 3 <= latitude r /\ latitude r <= sw_lat - 3
         /\ sw_lon + 3 <= longitude r /\ longitude r <= ne_lon - 3.
Proof.
  apply (@viewport_spans_markers sample_libraries three_rows). discriminate.
Defined.

(** ** The upload at a concrete folder *)

Lemma upload_image_moves_file_witness :
  (lookup "images/new.jpg"
     (files (snd (@upload_image sample_libraries
                    "/home/user/Pictures/new.jpg" before_upload)))
   = Some (Readable (sydney None))
   /\ lookup "/home/user/Pictures/new.jpg"
        (files (snd (@upload_image sample_libraries
                       "/home/user/Pictures/new.jpg" before_upload)))
      = None)
  /\ snd (@upload_image sample_libraries "/home/user/Pictures/new.jpg"
            upload_refused)
     = set_dialogs upload_refused [upload_error].
Proof.
  split.
  - pose proof (@upload_image_moves_file sample_libraries
                  "/home/user/Pictures/new.jpg" before_upload
                  (Readable (sydney None))) as H.
    cbv zeta in H. destruct H as [H _].
    + discriminate.
    + reflexivity.
    + vm_compute. discriminate.
    + destruct H as [H1 [H2 _]]; [reflexivity|]. split; [exact H1 | exact H2].
  - pose proof (@upload_image_moves_file sample_libraries
                  "/home/user/Pictures/new.jpg" upload_refused
                  (Readable (sydney None))) as H.
    cbv zeta in H. destruct H as [_ H].
    + discriminate.
    + reflexivity.
    + vm_compute. discriminate.
    + apply (H OSError). reflexivity.
Defined.

Lemma uploaded_file_is_scanned_iff_jpg_witness :
  In ("images/new.jpg", Readable (sydney None))
    (scanned BASE_LOC "*.jpg"
       (snd (@upload_image sample_libraries
               "/home/user/Pictures/new.jpg" before_upload))).
Proof.
  destruct (@uploaded_file_is_scanned_iff_jpg sample_libraries
              "/home/user/Pictures/new.jpg" before_upload
              (Readable (sydney None)))
    as [_ H].
  - discriminate.
  - reflexivity.
  - discriminate.
  - reflexivity.
  - apply H. reflexivity.
Defined.

(** ** Upload, then map *)

Lemma remove_key_absent {V} (k : string) (d : dict V) :
  ~ In k (List.map fst d) -> remove_key k d = d.
Proof.
  induction d as [|[k' v] d IH]; simpl; intros H; [reflexivity|].
  destruct (String.eqb_spec k k') as [->|_]; [tauto|].
  rewrite IH; tauto.
Qed.

Lemma filter_remove_key {V} (f : string -> bool) (k : string) (d : dict V) :
  f k = false ->
  filter (fun pf => f (fst pf)) (remove_key k d)
  = filter (fun pf => f (fst pf)) d.
Proof.
  intros Hk. induction d as [|[k' v] d IH]; simpl; [reflexivity|].
  destruct (String.eqb_spec k k') as [<-|_]; simpl.
  - now rewrite Hk.
  - now rewrite IH.
Qed.

(** X14. Uploading a photograph that has all its location tags, valid
    references and a time tag that is absent, null or matches the format,
    from outside the folder and under a [.jpg] name not yet taken there,
    into a folder whose visited files all open and read likewise, when
    the operating system accepts the move: no dialog is shown, and the
    document written has one marker more than the folder had located
    photographs. *)
Theorem upload_adds_marker {L : Libraries} (selection : string) (w : World)
    (img : Image) (k : nat) :
  NoDup (List.map fst (files w)) ->
  lookup selection (files w) = Some (Readable img) ->
  replace_error w selection (joinpath "images" (name selection)) = None ->
  visits BASE_LOC "*.jpg" selection = false ->
  endswith (name selection) ".jpg" = true ->
  lookup (joinpath "images" (name selection)) (files w) = None ->
  has_location img = true ->
  well_formed (Readable img) = true ->
  parses (raw_timestamp img) = true ->
  forallb well_formed (List.map snd (scanned BASE_LOC "*.jpg" w)) = true ->
  forallb time_parses (List.map snd (scanned BASE_LOC "*.jpg" w)) = true ->
  k = List.length (filter located (List.map snd (scanned BASE_LOC "*.jpg" w))) ->
  let w' := snd (upload_image selection w) in
  fst (upload_image selection w) = Ok tt
  /\ dialogs w' = dialogs w
  /\ exists m,
      map_html w' = Some (absolute (cwd w) "map.html", m)
      /\ List.length (colours_and_coordinates m) = S k.
Proof.
  intros ND Hf Hacc Hout Hjpg Hfree Hloc Hrefs Htime Hwf Hp Hk. cbv zeta.
  set (dst := joinpath "images" (name selection)) in *.
  assert (Hsel : selection <> "") by (intros ->; discriminate Hjpg).
  assert (Hdst : selection <> dst).
  { intros E. unfold dst in E. rewrite E, visits_destination in Hout.
    congruence. }
  rewrite (upload_image_unfold selection w Hsel), Hf. cbv zeta. fold dst.
  rewrite Hacc.
  destruct (String.eqb_spec selection dst) as [|_]; [contradiction|].
  assert (Hnot : ~ In dst (List.map fst (remove_key selection (files w)))).
  { rewrite remove_key_keys. apply lookup_None in Hfree. tauto. }
  rewrite (remove_key_absent dst _ Hnot).
  set (w1 := set_files w (remove_key selection (files w)
                          ++ [(dst, Readable img)])%list).
  assert (Hscan : scanned BASE_LOC "*.jpg" w1
                  = (scanned BASE_LOC "*.jpg" w ++ [(dst, Readable img)])%list).
  { unfold scanned, w1. cbn [files set_files]. rewrite filter_app.
    rewrite (filter_remove_key (visits BASE_LOC "*.jpg") selection _ Hout).
    cbn [filter fst]. unfold dst at 1. now rewrite visits_destination, Hjpg. }
  destruct (generate_map_located w1 (S k)) as [out [_ Hpos]].
  - unfold w1. cbn [files set_files]. rewrite map_app. simpl.
    apply NoDup_app.
    + now apply remove_key_NoDup.
    + repeat constructor. intros [].
    + intros p Hp1 [<- | []]. contradiction.
  - rewrite Hscan, map_app, forallb_app, Hwf.
    cbn [List.map snd forallb andb]. now rewrite Hrefs.
  - rewrite Hscan, map_app, forallb_app, Hp. simpl.
    now rewrite Hloc, Htime.
  - rewrite Hscan, map_app, filter_app, length_app, <- Hk. simpl.
    rewrite Hloc. simpl. lia.
  - destruct Hpos as [m [E [Hc _]]]; [lia|]. rewrite E. simpl.
    split; [reflexivity|]. split; [reflexivity|]. now exists m.
Qed.

Lemma upload_adds_marker_witness :
  fst (@upload_image sample_libraries "/home/user/Pictures/new.jpg"
         before_upload) = Ok tt
  /\ dialogs (snd (@upload_image sample_libraries
                     "/home/user/Pictures/new.jpg" before_upload)) = []
  /\ exists m,
      map_html (snd (@upload_image sample_libraries
                       "/home/user/Pictures/new.jpg" before_upload))
      = Some (absolute (cwd before_upload) "map.html", m)
      /\ List.length (colours_and_coordinates m) = 3%nat.
Proof.
  apply (@upload_adds_marker sample_libraries "/home/user/Pictures/new.jpg"
           before_upload (sydney None) 2);
    try reflexivity.
  repeat constructor; simpl; intuition discriminate.
Defined.

Lemma upload_image_never_raises_witness :
  fst (@upload_image sample_libraries "/home/user/Pictures/gone.jpg"
         before_upload) = Ok tt
  /\ snd (@upload_image sample_libraries "/home/user/Pictures/gone.jpg"
            before_upload)
     = set_dialogs before_upload [upload_error].
Proof.
  destruct (@upload_image_never_raises sample_libraries
              "/home/user/Pictures/gone.jpg" before_upload) as [H1 [_ H3]].
  split; [exact H1|]. apply H3; [discriminate | reflexivity].
Defined.

(** ** Outcomes of the table builder *)

Lemma parses_false_row {L : Libraries}
    (df : list (PhotoRecord (option string))) :
  forallb parses (List.map timestamp df) = false ->
  exists r s,
    In r df /\ timestamp r = Some s /\ null_text s = false
    /\ strptime s = None.
Proof.
  induction df as [|r df IH]; simpl; [discriminate|].
  destruct (parses (timestamp r)) eqn:E; simpl.
  - intros H. destruct (IH H) as [r' [s [Hi Hs]]]. exists r', s. tauto.
  - intros _. unfold parses in E. destruct (timestamp r) as [s|] eqn:Et;
      [|discriminate].
    exists r, s. split; [now left|]. split; [exact Et|].
    apply orb_false_iff in E. destruct E as [En Es].
    split; [assumption|]. now destruct (strptime s).
Qed.

Lemma parsed_nulls {L : Libraries} (df : list (PhotoRecord (option string))) :
  forallb parses (List.map timestamp df) = true ->
  List.length
    (filter isna
       (List.map (fun r => set_timestamp r (parse (timestamp r))) df))
  = List.length (filter (fun r => reads_null (timestamp r)) df).
Proof.
  induction df as [|r df IH]; simpl; [reflexivity|].
  intros H. apply andb_true_iff in H. destruct H as [Hr Hdf].
  unfold isna at 1, set_timestamp at 1. cbn [timestamp].
  destruct (timestamp r) as [s|]; cbn [parse parses reads_null] in *.
  - destruct (null_text s); cbn [orb] in *; [simpl; now rewrite IH|].
    destruct (strptime s); [now apply IH | discriminate].
  - simpl. now rewrite IH.
Qed.

(** X15. The table builder ends in one of three ways, for any set of
    records.  With no record it raises [AttributeError].  With records of
    which one has a raw timestamp that is no null text (empty, NaT, nan)
    and does not match the format it raises [ValueError].  Otherwise it
    returns a table with one row per record, in which exactly the records
    whose raw timestamp is absent or a null text have a null timestamp. *)
Theorem table_builder_outcomes {L : Libraries}
    (res : dict (PhotoRecord (option string))) :
  match table_builder res with
  | Ok table =>
      res <> []
      /\ forallb parses (List.map timestamp (DataFrame_T res)) = true
      /\ List.length table = List.length res
      /\ List.length (filter isna table)
         = List.length
             (filter (fun r => reads_null (timestamp r)) (DataFrame_T res))
  | Raise AttributeError => res = []
  | Raise ValueError =>
      res <> []
      /\ exists r s,
          In r (DataFrame_T res) /\ timestamp r = Some s
          /\ null_text s = false /\ strptime s = None
  | Raise _ => False
  end.
Proof.
  rewrite table_builder_spec. destruct res as [|kv res]; [reflexivity|].
  destruct (forallb parses _) eqn:E.
  - split; [discriminate|]. split; [reflexivity|]. split.
    + rewrite (Permutation_length (sort_values_perm _)).
      unfold DataFrame_T. now rewrite !length_map.
    + rewrite sort_values_nulls. now apply parsed_nulls.
  - split; [discriminate|]. now apply parses_false_row.
Qed.
